(** * The Tokens exchange connector (js/tokens.js): a shallow embedding

    The connector translates raw JSON payloads of the tokens.net REST API into
    the canonical market, ticker, trade and order shapes.  JavaScript values
    are embedded as an inductive type, JavaScript numbers as IEEE 754 binary64
    (Rocq's primitive floats), thrown exceptions as an error result. *)

From Stdlib Require Import ZArith NArith List String Ascii Bool Lia Floats.
From Stdlib Require Import DecimalString DecimalNat Sorted Finite Permutation.
Import ListNotations.
Local Open Scope string_scope.
Set Warnings "-register-all,-inexact-float".

(** ** JavaScript values *)

(** A JavaScript value as the connector meets it: JSON data, [undefined], and
    the properties every plain object inherits from [Object.prototype]
    ([VProto name] stands for [Object.prototype[name]]).  An object lists its
    own enumerable properties in enumeration order. *)
Inductive value : Type :=
| VUndefined
| VNull
| VBool (b : bool)
| VNum (n : float)
| VStr (s : string)
| VArr (xs : list value)
| VObj (props : list (string * value))
| VProto (name : string).

(** What a call can throw.  [ErrorClass] names the classes of base/errors.js
    that the connector imports, and [CredentialsRequired], the error of the
    base class's credential check.  [ThrownObject v] is the object
    [new Object (v)], thrown as it is: [v] itself when [v] is an object, a
    wrapper of [v] when it is a primitive, a new empty object when it is
    [null] or [undefined]. *)
Inductive ErrorClass : Type :=
| ExchangeError
| BadRequest
| ArgumentsRequired
| InvalidNonce
| DDoSProtection
| CredentialsRequired.

Inductive exception : Type :=
| TypeError
| Raised (cls : ErrorClass) (message : value)
| ThrownObject (v : value).

Inductive result (A : Type) : Type :=
| Ok (a : A)
| Throw (e : exception).
Arguments Ok {A} a.
Arguments Throw {A} e.

Definition bind {A B : Type} (r : result A) (k : A -> result B) : result B :=
  match r with
  | Ok a => k a
  | Throw e => Throw e
  end.

Notation "x <- r ;; k" := (bind r (fun x => k))
  (at level 61, r at next level, right associativity).
Notation "' p <- r ;; k" := (bind r (fun x => let 'p := x in k))
  (at level 61, p pattern, r at next level, right associativity).

Fixpoint mapM {A B : Type} (f : A -> result B) (l : list A) : result (list B) :=
  match l with
  | [] => Ok []
  | a :: l' => b <- f a ;; bs <- mapM f l' ;; Ok (b :: bs)
  end.

(** ** Strings *)

(** A string is held as the bytes of its UTF-8 text, the form a string
    literal of this file has (a surrogate that stands alone, which only
    indexing into a string produces, in the three-byte form of the same
    scheme). *)

Definition is_upper (c : ascii) : bool :=
  let n := nat_of_ascii c in (65 <=? n)%nat && (n <=? 90)%nat.

Definition lower_ascii (c : ascii) : ascii :=
  if is_upper c then ascii_of_nat (nat_of_ascii c + 32) else c.

Definition upper_ascii (c : ascii) : ascii :=
  let n := nat_of_ascii c in
  if (97 <=? n)%nat && (n <=? 122)%nat then ascii_of_nat (n - 32) else c.

(** A text of ASCII characters only: every byte is below 128. *)
Fixpoint all_ascii (s : string) : bool :=
  match s with
  | EmptyString => true
  | String c s' => (nat_of_ascii c <? 128)%nat && all_ascii s'
  end.

(** The letters A to Z lowered, and a to z raised, each in its place. *)
Fixpoint lower_letters (s : string) : string :=
  match s with
  | EmptyString => EmptyString
  | String c s' => String (lower_ascii c) (lower_letters s')
  end.

Fixpoint upper_letters (s : string) : string :=
  match s with
  | EmptyString => EmptyString
  | String c s' => String (upper_ascii c) (upper_letters s')
  end.

(** [s.split (sep)] for a one-character separator: never empty. *)
Fixpoint split (sep : ascii) (s : string) : list string :=
  match s with
  | EmptyString => [EmptyString]
  | String c s' =>
      if Ascii.eqb c sep then EmptyString :: split sep s'
      else match split sep s' with
           | [] => [String c EmptyString]
           | p :: ps => String c p :: ps
           end
  end.

Fixpoint occurs (c : ascii) (s : string) : bool :=
  match s with
  | EmptyString => false
  | String d s' => Ascii.eqb d c || occurs c s'
  end.

(** A UTF-16 code unit [u] of the surrogate range, in three bytes. *)
Definition surrogate (u : N) : string :=
  String (ascii_of_N (224 + u / 4096))
    (String (ascii_of_N (128 + (u / 64) mod 64))
       (String (ascii_of_N (128 + u mod 64)) EmptyString)).

(** The characters [s[0]], [s[1]], ... of a string, one per UTF-16 code
    unit: a character of one, two or three bytes is one unit, a character of
    four bytes is a pair of surrogates. *)
Fixpoint units (s : string) : list string :=
  match s with
  | EmptyString => []
  | String c s1 =>
      let n := N_of_ascii c in
      if (n <? 192)%N then String c EmptyString :: units s1
      else if (n <? 224)%N then
        match s1 with
        | String c1 s2 => String c (String c1 EmptyString) :: units s2
        | EmptyString => [String c EmptyString]
        end
      else if (n <? 240)%N then
        match s1 with
        | String c1 (String c2 s3) =>
            String c (String c1 (String c2 EmptyString)) :: units s3
        | _ => String c EmptyString :: units s1
        end
      else
        match s1 with
        | String c1 (String c2 (String c3 s4)) =>
            let v := ((n mod 8) * 262144 + (N_of_ascii c1 mod 64) * 4096
                      + (N_of_ascii c2 mod 64) * 64 + N_of_ascii c3 mod 64
                      - 65536)%N in
            surrogate (55296 + v / 1024) :: surrogate (56320 + v mod 1024)
              :: units s4
        | _ => String c EmptyString :: units s1
        end
  end.

Definition chars (s : string) : list value := map VStr (units s).

(** ** Numbers *)

(** The binary64 number nearest to the integer [z] (ties to even); [prec]
    and [emax] are the 53 bits and the exponent bound 1024 of the format. *)
Definition of_Z (z : Z) : float :=
  SF2Prim (binary_normalize prec emax z 0 false).

Definition of_nat (n : nat) : float := of_Z (Z.of_nat n).

(** The binary64 number nearest to [m / 10^k] for [m > 0]: the quotient is
    taken with at least 57 significant bits and a sticky bit, then rounded. *)
Definition round_quotient (neg : bool) (m : positive) (k : Z) : float :=
  let d := (10 ^ k)%Z in
  let sh := Z.max 0 (57 + Z.log2_up d - Z.log2 (Zpos m)) in
  let q := (Zpos m * 2 ^ sh / d)%Z in
  let r := (Zpos m * 2 ^ sh mod d)%Z in
  let q' := (2 * q + (if (r =? 0)%Z then 0 else 1))%Z in
  SF2Prim (binary_normalize prec emax (if neg then - q' else q') (- sh - 1) neg).

(** The binary64 number nearest to [(-1)^neg * m * 10^e]. *)
Definition round_decimal (neg : bool) (m : Z) (e : Z) : float :=
  match m with
  | Zpos p =>
      if (0 <=? e)%Z
      then SF2Prim (binary_normalize prec emax
                      (if neg then - (m * 10 ^ e) else m * 10 ^ e) 0 neg)
      else round_quotient neg p (- e)
  | _ => if neg then (-0)%float else 0%float
  end.

Definition digit_of (c : ascii) : option Z :=
  let n := nat_of_ascii c in
  if (48 <=? n)%nat && (n <=? 57)%nat then Some (Z.of_nat (n - 48)) else None.

(** The white space and line terminators of one byte: the space and U+0009
    to U+000D. *)
Definition is_space (c : ascii) : bool :=
  let n := nat_of_ascii c in
  (n =? 32)%nat || ((9 <=? n)%nat && (n <=? 13)%nat).

(** The last byte of U+2000 to U+200A, U+2028, U+2029 and U+202F, whose
    first two bytes are 226 and 128. *)
Definition is_general_space (c : ascii) : bool :=
  let n := nat_of_ascii c in
  ((128 <=? n)%nat && (n <=? 138)%nat) || (n =? 168)%nat || (n =? 169)%nat
  || (n =? 175)%nat.

(** The string without the white space it starts with.  Besides the
    characters of one byte these are U+00A0, U+1680, U+2000 to U+200A,
    U+2028, U+2029, U+202F, U+205F, U+3000 and U+FEFF. *)
Fixpoint trimStart (s : string) : string :=
  match s with
  | String c s1 =>
      if is_space c then trimStart s1
      else
        match s with
        | String "194"%char (String "160"%char s2) => trimStart s2
        | String "225"%char (String "154"%char (String "128"%char s3)) =>
            trimStart s3
        | String "226"%char (String "128"%char (String c2 s3)) =>
            if is_general_space c2 then trimStart s3 else s
        | String "226"%char (String "129"%char (String "159"%char s3)) =>
            trimStart s3
        | String "227"%char (String "128"%char (String "128"%char s3)) =>
            trimStart s3
        | String "239"%char (String "187"%char (String "191"%char s3)) =>
            trimStart s3
        | _ => s
        end
  | EmptyString => s
  end.

(** Reads the longest run of decimal digits at the head of [s]: the integer
    read so far, how many digits were read, and the rest of the string. *)
Fixpoint read_digits (s : string) (acc : Z) (count : nat) : Z * nat * string :=
  match s with
  | String c s' =>
      match digit_of c with
      | Some d => read_digits s' (10 * acc + d)%Z (S count)
      | None => (acc, count, s)
      end
  | EmptyString => (acc, count, s)
  end.

Definition read_sign (s : string) : bool * string :=
  match s with
  | String "-" s' => (true, s')
  | String "+" s' => (false, s')
  | _ => (false, s)
  end.

(** The exponent part [e[+-]ddd], when one follows; otherwise exponent 0. *)
Definition read_exponent (s : string) : Z :=
  match s with
  | String c s' =>
      if Ascii.eqb c "e" || Ascii.eqb c "E" then
        let '(neg, s'') := read_sign s' in
        let '(e, n, _) := read_digits s'' 0%Z 0 in
        match n with
        | O => 0%Z
        | _ => if neg then (- e)%Z else e
        end
      else 0%Z
  | EmptyString => 0%Z
  end.

(** The global [parseFloat] on a string: leading white space is skipped, the
    longest prefix that is a decimal literal is read, and [NaN] results when
    there is none. *)
Definition parseFloat (s : string) : float :=
  let '(neg, s1) := read_sign (trimStart s) in
  if String.prefix "Infinity" s1
  then (if neg then neg_infinity else infinity)
  else
    let '(ip, ni, s2) := read_digits s1 0%Z 0 in
    let '(m, nf, s3) :=
      match s2 with
      | String "." s2' =>
          let '(m, nf, s3) := read_digits s2' ip 0 in
          match ni, nf with
          | O, O => (ip, O, s2)
          | _, _ => (m, nf, s3)
          end
      | _ => (ip, O, s2)
      end in
    match ni, nf with
    | O, O => nan
    | _, _ => round_decimal neg m (read_exponent s3 - Z.of_nat nf)
    end.

Definition hex_digit_of (c : ascii) : option Z :=
  let n := nat_of_ascii c in
  if (48 <=? n)%nat && (n <=? 57)%nat then Some (Z.of_nat (n - 48))
  else if (97 <=? n)%nat && (n <=? 102)%nat then Some (Z.of_nat (n - 87))
  else if (65 <=? n)%nat && (n <=? 70)%nat then Some (Z.of_nat (n - 55))
  else None.

Fixpoint read_hex_digits (s : string) (acc : Z) (count : nat) : Z * nat :=
  match s with
  | String c s' =>
      match hex_digit_of c with
      | Some d => read_hex_digits s' (16 * acc + d)%Z (S count)
      | None => (acc, count)
      end
  | EmptyString => (acc, count)
  end.

(** The global [parseInt] on a string, with no radix given: an optional sign,
    then hexadecimal digits after [0x] and decimal digits otherwise; [NaN]
    when no digit is read. *)
Definition parseInt_string (s : string) : float :=
  let '(neg, s1) := read_sign (trimStart s) in
  let '(m, n) :=
    match s1 with
    | String "0" (String "x" s2) | String "0" (String "X" s2) =>
        read_hex_digits s2 0%Z 0
    | _ => let '(m, n, _) := read_digits s1 0%Z 0 in (m, n)
    end in
  match n with
  | O => nan
  | _ => round_decimal neg m 0
  end.

(** ** Property access *)

(** The names every object inherits from [Object.prototype]. *)
Definition object_prototype_names : list string :=
  [ "constructor"; "__defineGetter__"; "__defineSetter__"; "hasOwnProperty";
    "__lookupGetter__"; "__lookupSetter__"; "isPrototypeOf";
    "propertyIsEnumerable"; "toString"; "valueOf"; "__proto__";
    "toLocaleString" ].

Definition inherited_name (k : string) : bool :=
  existsb (String.eqb k) object_prototype_names.

Fixpoint assoc {A : Type} (k : string) (l : list (string * A)) : option A :=
  match l with
  | [] => None
  | (k', a) :: l' => if String.eqb k k' then Some a else assoc k l'
  end.

Definition inherited (k : string) : value :=
  if inherited_name k then VProto k else VUndefined.

Fixpoint all_digits (s : string) : bool :=
  match s with
  | EmptyString => true
  | String c s' =>
      match digit_of c with Some _ => all_digits s' | None => false end
  end.

(** An array index written canonically: ["0"], or digits with no leading zero. *)
Definition index_of_key (k : string) : option nat :=
  match k with
  | EmptyString => None
  | String "0" EmptyString => Some O
  | String "0" _ => None
  | _ => if all_digits k
         then let '(n, _, _) := read_digits k 0%Z 0 in Some (Z.to_nat n)
         else None
  end.

Definition element (xs : list value) (k : string) : value :=
  if String.eqb k "length" then VNum (of_nat (List.length xs))
  else match index_of_key k with
       | Some i => match nth_error xs i with
                   | Some v => v
                   | None => VUndefined
                   end
       | None => inherited k
       end.

(** [o[k]] for a string key.  Reading a property of [undefined] or [null]
    throws; a plain object answers with its own property or the one inherited
    from [Object.prototype]; arrays and strings answer [length] and their
    indices (the methods of [Array.prototype] and [String.prototype] are not
    modelled). *)
Definition get (o : value) (k : string) : result value :=
  match o with
  | VUndefined | VNull => Throw TypeError
  | VObj props =>
      match assoc k props with
      | Some v => Ok v
      | None => Ok (inherited k)
      end
  | VArr xs => Ok (element xs k)
  | VStr s => Ok (element (chars s) k)
  | VNum _ | VBool _ | VProto _ => Ok (inherited k)
  end.

(** [k in o] for a plain object with own properties [props]: own or
    inherited. *)
Definition has_property {A : Type} (k : string) (props : list (string * A)) : bool :=
  match assoc k props with
  | Some _ => true
  | None => inherited_name k
  end.

(** [Object.values (o)]: the own enumerable property values. *)
Definition Object_values (o : value) : result (list value) :=
  match o with
  | VUndefined | VNull => Throw TypeError
  | VObj props => Ok (map snd props)
  | VArr xs => Ok xs
  | VStr s => Ok (chars s)
  | VNum _ | VBool _ | VProto _ => Ok []
  end.

Definition isObject (o : value) : bool :=
  match o with
  | VObj _ | VArr _ => true
  | _ => false
  end.

(** [x === y] against a string literal. *)
Definition is_string (v : value) (s : string) : bool :=
  match v with
  | VStr s' => String.eqb s' s
  | _ => false
  end.

(** [x !== undefined]. *)
Definition defined (v : value) : bool :=
  match v with
  | VUndefined => false
  | _ => true
  end.

Definition of_option {A : Type} (f : A -> value) (o : option A) : value :=
  match o with
  | Some a => f a
  | None => VUndefined
  end.

(** Calling a string method on [v]: anything but a string has no such
    method, and the call throws. *)
Definition as_string (v : value) : result string :=
  match v with
  | VStr s => Ok s
  | _ => Throw TypeError
  end.

(** [x === y].  Objects are compared by identity in JavaScript; the only
    comparison of the connector that can meet objects has the same stored
    value on both sides, which the structural test answers alike. *)
Fixpoint strict_equal (a b : value) : bool :=
  match a, b with
  | VUndefined, VUndefined => true
  | VNull, VNull => true
  | VBool x, VBool y => Bool.eqb x y
  | VNum x, VNum y => PrimFloat.eqb x y
  | VStr x, VStr y => String.eqb x y
  | VProto x, VProto y => String.eqb x y
  | VArr xs, VArr ys =>
      (fix go (xs ys : list value) {struct xs} : bool :=
         match xs, ys with
         | [], [] => true
         | x :: xs', y :: ys' => strict_equal x y && go xs' ys'
         | _, _ => false
         end) xs ys
  | VObj ps, VObj qs =>
      (fix go (ps qs : list (string * value)) {struct ps} : bool :=
         match ps, qs with
         | [], [] => true
         | (k, x) :: ps', (k', y) :: qs' =>
             String.eqb k k' && strict_equal x y && go ps' qs'
         | _, _ => false
         end) ps qs
  | _, _ => false
  end.

(** The decimal string of an array index. *)
Definition nat_key (i : nat) : string :=
  DecimalString.NilEmpty.string_of_uint (Nat.to_uint i).

(** The decimal string of an integer-valued number below 10^21, as
    [Number.prototype.toString] prints it. *)
Definition Z_to_string (z : Z) : string :=
  DecimalString.NilZero.string_of_int (Z.to_int z).

(** ** The canonical shapes *)

Record Range : Type := { min : float; max : value }.

Record Limits : Type := { amount : Range; price : Range; cost : Range }.

Record Precision : Type := { p_amount : value; p_price : value }.

Module Market.
Record t : Type := {
  id : string;
  symbol : string;
  base : string;
  quote : string;
  baseId : string;
  quoteId : string;
  symbolId : string;
  info : value;
  active : bool;
  precision : Precision;
  limits : Limits
}.
End Market.

Module Ticker.
Record t : Type := {
  symbol : value;
  timestamp : float;
  datetime : value;
  high : option float;
  low : option float;
  bid : option float;
  bidVolume : value;
  ask : option float;
  askVolume : value;
  vwap : option float;
  open : option float;
  close : option float;
  last : option float;
  previousClose : value;
  change : value;
  percentage : value;
  average : value;
  baseVolume : option float;
  quoteVolume : option float;
  info : value
}.
End Ticker.

Module Trade.
Record t : Type := {
  amount : option float;
  id : option string;
  info : value;
  order : value;
  price : option float;
  timestamp : float;
  datetime : value;
  type : value;
  side : option string;
  symbol : value;
  cost : option float
}.
End Trade.

Module Fee.
Record t : Type := { cost : value; currency : value }.
End Fee.

Module Order.
Record t : Type := {
  id : option string;
  datetime : value;
  timestamp : string;
  lastTradeTimestamp : value;
  status : value;
  symbol : value;
  type : string;
  side : option string;
  price : option float;
  cost : float;
  amount : option float;
  filled : float;
  remaining : option float;
  trades : list Trade.t;
  fee : Fee.t;
  info : value
}.
End Order.

Module Request.
Record t : Type := {
  url : string;
  method : value;
  body : value;
  headers : value
}.
End Request.

(** ** The host and the base class

    [tokens] extends the framework's [Exchange] class (js/base/Exchange.js),
    which is not part of this fragment.  Conversions the JavaScript engine
    performs and helpers of the base class whose results the connector only
    passes on are variables of the section; the helpers the connector's
    results depend on are modelled below. *)
Section Tokens.
Set Default Proof Using "Type".

(** [String (x)] for a number that is not an integer below 2^53, and for a
    function. *)
Variable String_host : value -> string.
(** [Number (x)] for a string, and for a function. *)
Variable Number_host : value -> float.
(** The conversion of an object whose own [toString] or [valueOf] is a
    function, to a string and to a number: what calling the function yields,
    or nothing when the conversion ends in a [TypeError].  (Parsed JSON holds
    no function.) *)
Variable String_object : value -> option string.
Variable Number_object : value -> option float.
(** [String.prototype.toLowerCase] and [toUpperCase] on a text that has
    characters outside ASCII. *)
Variable toLowerCase_host : string -> string.
Variable toUpperCase_host : string -> string.
(** [Math.pow]: implementation-approximated in ECMAScript. *)
Variable Math_pow : float -> float -> float.
(** [Exchange.iso8601]: the ISO 8601 date string of a timestamp. *)
Variable iso8601 : value -> value.
(** [Exchange.hmac (request, secret)] with the default hash and digest. *)
Variable hmac : string -> string -> string.
(** [Exchange.urlencode], [implodeParams] and [extractParams]. *)
Variable urlencode : list (string * value) -> string.
Variable implodeParams : string -> list (string * value) -> string.
Variable extractParams : string -> list string.

Definition toLowerCase (s : string) : string :=
  if all_ascii s then lower_letters s else toLowerCase_host s.

Definition toUpperCase (s : string) : string :=
  if all_ascii s then upper_letters s else toUpperCase_host s.

(** The integer a number is, when it is one. *)
Definition integer_of (n : float) : option Z :=
  match Prim2SF n with
  | S754_zero _ => Some 0%Z
  | S754_finite sign m e =>
      let magnitude :=
        if (0 <=? e)%Z then Some (Zpos m * 2 ^ e)%Z
        else if (Zpos m mod 2 ^ (- e) =? 0)%Z then Some (Zpos m / 2 ^ (- e))%Z
        else None in
      option_map (fun z => if sign then (- z)%Z else z) magnitude
  | _ => None
  end.

(** [Number.prototype.toString]: the names of [NaN] and the infinities, and
    the decimal digits of an integer below 2^53 (up to there every integer
    is a binary64 number, and no shorter decimal reads as the same one). *)
Definition Number_toString (n : float) : string :=
  if is_nan n then "NaN"
  else if is_infinity n then (if (n <? 0)%float then "-Infinity" else "Infinity")
  else match integer_of n with
       | Some z => if (Z.abs z <? 2 ^ 53)%Z then Z_to_string z
                   else String_host (VNum n)
       | None => String_host (VNum n)
       end.

Definition of_host {A : Type} (x : option A) : result A :=
  match x with
  | Some a => Ok a
  | None => Throw TypeError
  end.

(** The conversion of a value to a string, as [String (x)], [parseInt (x)],
    [parseFloat (x)] and a computed property key perform it.  An array joins
    the strings of its elements with commas, [null] and [undefined] counting
    as empty.  A plain object answers through its [toString] and then its
    [valueOf]: the inherited [toString] gives "[object Object]"; an own
    [toString] that is no function is passed over, the inherited [valueOf]
    gives back the object, no primitive, and the conversion throws. *)
Fixpoint ToString (v : value) : result string :=
  match v with
  | VStr s => Ok s
  | VUndefined => Ok "undefined"
  | VNull => Ok "null"
  | VBool true => Ok "true"
  | VBool false => Ok "false"
  | VNum n => Ok (Number_toString n)
  | VProto _ => Ok (String_host v)
  | VArr xs =>
      (fix join (xs : list value) : result string :=
         match xs with
         | [] => Ok ""
         | x :: xs' =>
             s <- match x with
                  | VUndefined | VNull => Ok ""
                  | _ => ToString x
                  end ;;
             match xs' with
             | [] => Ok s
             | _ => rest <- join xs' ;; Ok (s ++ "," ++ rest)
             end
         end) xs
  | VObj props =>
      match assoc "toString" props with
      | None => Ok "[object Object]"
      | Some (VProto _) => of_host (String_object v)
      | Some _ =>
          match assoc "valueOf" props with
          | Some (VProto _) => of_host (String_object v)
          | _ => Throw TypeError
          end
      end
  end.

(** The conversion of a value to a number, as the arithmetic operators
    perform it: an object answers through its [valueOf] and then its
    [toString], so a plain object is [NaN] and an array is the number of its
    string. *)
Definition ToNumber (v : value) : result float :=
  match v with
  | VNum n => Ok n
  | VUndefined => Ok nan
  | VNull => Ok 0%float
  | VBool true => Ok 1%float
  | VBool false => Ok 0%float
  | VStr _ | VProto _ => Ok (Number_host v)
  | VArr _ => s <- ToString v ;; Ok (Number_host (VStr s))
  | VObj props =>
      match assoc "valueOf" props with
      | Some (VProto _) => of_host (Number_object v)
      | _ =>
          match assoc "toString" props with
          | None => Ok nan
          | Some (VProto _) => of_host (Number_object v)
          | Some _ => Throw TypeError
          end
      end
  end.

(** [o[key]] for a computed key: [null] and [undefined] have no properties,
    and the key is converted to a string. *)
Definition get_at (o : value) (key : value) : result value :=
  match o with
  | VUndefined | VNull => Throw TypeError
  | _ => k <- ToString key ;; get o k
  end.

(** [parseInt (x)]: the argument is converted to a string first. *)
Definition parseInt (v : value) : result float :=
  s <- ToString v ;; Ok (parseInt_string s).

(** [prop (o, k)] of the base class: [o[k]] when [o] is an object, else
    [undefined]. *)
Definition prop (o : value) (k : string) : value :=
  if isObject o
  then match get o k with Ok v => v | Throw _ => VUndefined end
  else VUndefined.

(** Modelled from the spec: [Exchange.safeString] (js/base/Exchange.js is not
    in the fragment) reads a field defensively: an absent or null field gives
    the default, anything else its string conversion, [String (x)]. *)
Definition safeString (o : value) (k : string) (default : option string)
  : result (option string) :=
  match prop o k with
  | VUndefined | VNull => Ok default
  | v => s <- ToString v ;; Ok (Some s)
  end.

(** The same with a second key, read when the first gives nothing. *)
Definition safeString2 (o : value) (k1 k2 : string) (default : option string)
  : result (option string) :=
  first <- safeString o k1 None ;;
  match first with
  | Some s => Ok (Some s)
  | None => safeString o k2 default
  end.

(** The numeric reading of a raw field: a number as it is, a string through
    [parseFloat], anything else [NaN]. *)
Definition asFloat (v : value) : float :=
  match v with
  | VNum n => n
  | VStr s => parseFloat s
  | _ => nan
  end.

(** Modelled from the spec: [Exchange.safeFloat] (js/base/Exchange.js is not
    in the fragment) extracts a numeric field defensively: a finite number is
    returned, a string is read with [parseFloat], and an absent or
    non-numeric field gives the default (never a zero). *)
Definition safeFloat (o : value) (k : string) (default : option float) : option float :=
  let n := asFloat (prop o k) in
  if is_finite n then Some n else default.

(** [safeFloat (o, key, default)] with a computed key: the key is converted
    to a string when the field is read, which happens only when [o] is an
    object. *)
Definition safeFloat_at (o : value) (key : value) (default : option float)
  : result (option float) :=
  if isObject o
  then k <- ToString key ;; Ok (safeFloat o k default)
  else Ok default.

(** ** fetchMarkets *)

(** The body of the loop of [fetchMarkets], for one raw pair record. *)
Definition fetchMarkets_entry (market : value) : result Market.t :=
  title <- get market "title" ;;
  symbol <- as_string title ;;
  let parts := split "/" symbol in
  let base := nth 0 parts "" in
  quote <- as_string (of_option VStr (nth_error parts 1)) ;;
  let baseId := toLowerCase base in
  let quoteId := toLowerCase quote in
  let symbolId := baseId ++ "_" ++ quoteId in
  let id := baseId ++ quoteId in
  priceDecimals <- get market "priceDecimals" ;;
  amountDecimals <- get market "amountDecimals" ;;
  let precision := {| p_amount := priceDecimals; p_price := amountDecimals |} in
  minAmount <- get market "minAmount" ;;
  minAmount <- as_string minAmount ;;
  let parts := split " " minAmount in
  let cost := nth 0 parts "" in
  trading <- get market "trading" ;;
  let active := is_string trading "Enabled" in
  amountDigits <- ToNumber (p_amount precision) ;;
  priceDigits <- ToNumber (p_price precision) ;;
  Ok {| Market.id := id;
        Market.symbol := symbol;
        Market.base := base;
        Market.quote := quote;
        Market.baseId := baseId;
        Market.quoteId := quoteId;
        Market.symbolId := symbolId;
        Market.info := market;
        Market.active := active;
        Market.precision := precision;
        Market.limits := {|
          amount := {| min := Math_pow 10 (- amountDigits);
                       max := VUndefined |};
          price := {| min := Math_pow 10 (- priceDigits);
                      max := VUndefined |};
          cost := {| min := parseFloat cost; max := VUndefined |} |} |}.

(** [fetchMarkets], given the response of the trading-pairs endpoint. *)
Definition fetchMarkets (markets : value) : result (list Market.t) :=
  records <- Object_values markets ;;
  mapM fetchMarkets_entry records.

(** ** fetchTicker *)

Definition to_number (x : option float) : float :=
  match x with
  | Some n => n
  | None => nan
  end.

(** [fetchTicker], given the response [ticker] of the ticker endpoint. *)
Definition fetchTicker (symbol : value) (ticker : value) : result Ticker.t :=
  ts <- get ticker "timestamp" ;;
  seconds <- parseInt ts ;;
  let timestamp := (seconds * 1000)%float in
  let vwap := safeFloat ticker "vwap" None in
  let baseVolume := safeFloat ticker "volume" None in
  let quoteVolume :=
    match baseVolume, vwap with
    | Some b, Some v => Some (b * v)%float
    | _, _ => None
    end in
  let last := safeFloat ticker "last" None in
  Ok {| Ticker.symbol := symbol;
        Ticker.timestamp := timestamp;
        Ticker.datetime := iso8601 (VNum timestamp);
        Ticker.high := safeFloat ticker "high" None;
        Ticker.low := safeFloat ticker "low" None;
        Ticker.bid := safeFloat ticker "bid" None;
        Ticker.bidVolume := VUndefined;
        Ticker.ask := safeFloat ticker "ask" None;
        Ticker.askVolume := VUndefined;
        Ticker.vwap := vwap;
        Ticker.open := safeFloat ticker "open" None;
        Ticker.close := last;
        Ticker.last := last;
        Ticker.previousClose := VUndefined;
        Ticker.change := VUndefined;
        Ticker.percentage := VUndefined;
        Ticker.average := VUndefined;
        Ticker.baseVolume := baseVolume;
        Ticker.quoteVolume := quoteVolume;
        Ticker.info := ticker |}.

(** ** parseTrade and parseTrades *)

Definition parseTrade (trade : value) (market : value) : result Trade.t :=
  side <- safeString trade "type" None ;;
  let price := safeFloat trade "price" None in
  let amount := safeFloat trade "amount" None in
  id <- safeString2 trade "tid" "id" None ;;
  dt <- get trade "datetime" ;;
  seconds <- parseInt dt ;;
  let timestamp := (seconds * 1000)%float in
  let cost := safeFloat trade "cost" None in
  '(price, amount, cost, symbol) <-
    (if defined market then
       symbolId <- get market "symbolId" ;;
       price <- safeFloat_at trade symbolId price ;;
       baseId <- get market "baseId" ;;
       amount <- safeFloat_at trade baseId amount ;;
       quoteId <- get market "quoteId" ;;
       cost <- safeFloat_at trade quoteId cost ;;
       symbol <- get market "symbol" ;;
       Ok (price, amount, cost, symbol)
     else Ok (price, amount, cost, VUndefined)) ;;
  let cost :=
    match cost, price, amount with
    | None, Some p, Some a => Some (p * a)%float
    | _, _, _ => cost
    end in
  let cost := option_map PrimFloat.abs cost in
  Ok {| Trade.amount := amount;
        Trade.id := id;
        Trade.info := trade;
        Trade.order := VUndefined;
        Trade.price := price;
        Trade.timestamp := timestamp;
        Trade.datetime := iso8601 (VNum timestamp);
        Trade.type := VUndefined;
        Trade.side := side;
        Trade.symbol := symbol;
        Trade.cost := cost |}.

Fixpoint insert_by_timestamp (x : Trade.t) (l : list Trade.t) : list Trade.t :=
  match l with
  | [] => [x]
  | y :: l' =>
      if (Trade.timestamp y <? Trade.timestamp x)%float
      then y :: insert_by_timestamp x l'
      else x :: l
  end.

(** Modelled from the spec: [Exchange.sortBy (array, 'timestamp')]
    (js/base/Exchange.js is not in the fragment) sorts ascending by timestamp
    and is stable: an entry moves only past entries with a strictly smaller
    timestamp. *)
Definition sortBy (l : list Trade.t) : list Trade.t :=
  fold_right insert_by_timestamp [] l.

Definition is_nullish (v : value) : bool :=
  match v with
  | VUndefined | VNull => true
  | _ => false
  end.

Definition keep (symbol : value) (since : option float) (entry : Trade.t) : bool :=
  (if is_nullish symbol then true else strict_equal (Trade.symbol entry) symbol)
  && match since with
     | Some t => (t <=? Trade.timestamp entry)%float
     | None => true
     end.

(** Modelled from the spec: [Exchange.filterBySymbolSinceLimit]
    (js/base/Exchange.js is not in the fragment) keeps the entries of the
    requested symbol (if given) with timestamp at least [since] (if given),
    truncated to at most [limit] entries (if given), in the order they have. *)
Definition filterBySymbolSinceLimit (l : list Trade.t) (symbol : value)
  (since : option float) (limit : option nat) : list Trade.t :=
  let l := filter (keep symbol since) l in
  match limit with
  | Some n => firstn n l
  | None => l
  end.

(** [parseTrades], with the per-trade parser it dispatches to ([this.parseTrade],
    a method a subclass may override) as an argument. *)
Definition parseTrades_with (parse : value -> value -> result Trade.t)
  (trades : value) (market : value) (since : option float) (limit : option nat)
  : result (list Trade.t) :=
  raw <- get trades "trades" ;;
  len <- get raw "length" ;;
  if strict_equal len (VNum 0) then Ok []
  else
    entries <- Object_values raw ;;
    result <- mapM (fun trade => parse trade market) entries ;;
    let result := sortBy result in
    symbol <- (if defined market then get market "symbol" else Ok VUndefined) ;;
    Ok (filterBySymbolSinceLimit result symbol since limit).

Definition parseTrades := parseTrades_with parseTrade.

(** The timestamp [parseTrade] gives a raw trade: its [datetime] in epoch
    seconds, times 1000. *)
Definition raw_timestamp (trade : value) : float :=
  match dt <- get trade "datetime" ;; parseInt dt with
  | Ok seconds => (seconds * 1000)%float
  | Throw _ => nan
  end.

(** The object literal [parseTrade] returns, as a value. *)
Definition trade_object (t : Trade.t) : value :=
  VObj [ ("amount", of_option VNum (Trade.amount t));
         ("id", of_option VStr (Trade.id t));
         ("info", Trade.info t);
         ("order", Trade.order t);
         ("price", of_option VNum (Trade.price t));
         ("timestamp", VNum (Trade.timestamp t));
         ("datetime", Trade.datetime t);
         ("type", Trade.type t);
         ("side", of_option VStr (Trade.side t));
         ("symbol", Trade.symbol t);
         ("cost", of_option VNum (Trade.cost t)) ].

(** Ascending order of timestamps, as [sortBy] compares them. *)
Definition timestamp_le (a b : Trade.t) : Prop :=
  (Trade.timestamp b <? Trade.timestamp a)%float = false.

Definition numeric_timestamp (t : Trade.t) : Prop :=
  is_nan (Trade.timestamp t) = false.

(** ** parseOrderStatus and parseOrder *)

Definition statuses : list (string * string) :=
  [ ("open", "open"); ("filled", "closed"); ("canceled", "canceled");
    ("expired", "canceled") ].

Definition parseOrderStatus (status : value) : result value :=
  key <- ToString status ;;
  if has_property key statuses
  then match assoc key statuses with
       | Some s => Ok (VStr s)
       | None => Ok (inherited key)
       end
  else Ok status.

(** The loop [for (i = 0; i < trades.length; i++)] of [parseOrder] over an
    array-like plain object [raw], from index [i] on.  Every index the loop
    passes is an own property, and so is [length]: with as much fuel as the
    object has properties the loop ends before the fuel does
    ([parseOrder_loop_fuel] below). *)
Fixpoint parseOrder_loop (fuel : nat) (i : nat) (raw market : value)
  : result (list Trade.t) :=
  len <- get raw "length" ;;
  len <- ToNumber len ;;
  if (of_nat i <? len)%float
  then
    item <- get raw (nat_key i) ;;
    trade <- parseTrade item market ;;
    match fuel with
    | O => Throw TypeError
    | S fuel' =>
        rest <- parseOrder_loop fuel' (S i) raw market ;;
        Ok (trade :: rest)
    end
  else Ok [].

(** The same loop by the kind of [order.trades]: an array or a string is
    visited index by index up to its length; a plain object is read as
    array-like; anything else has no [length], and the loop does not run. *)
Definition parseOrder_trades (raw market : value) : result (list Trade.t) :=
  match raw with
  | VUndefined | VNull => Throw TypeError
  | VArr xs => mapM (fun item => parseTrade item market) xs
  | VStr s => mapM (fun item => parseTrade item market) (chars s)
  | VObj props => parseOrder_loop (List.length props) 0 raw market
  | VNum _ | VBool _ | VProto _ => Ok []
  end.

(** [parseOrder].  [markets_by_id] is the catalog's index by exchange-native
    pair id (state of the instance); the [market] argument is overwritten
    before it is read. *)
Definition parseOrder (markets_by_id : value) (order : value) (market : value)
  : result Order.t :=
  currencyPair <- get order "currencyPair" ;;
  market <- get_at markets_by_id currencyPair ;;
  status <- safeString order "orderStatus" None ;;
  status <- parseOrderStatus (of_option VStr status) ;;
  id <- safeString order "id" None ;;
  side <- safeString order "type" None ;;
  created <- get order "created" ;;
  created <- ToNumber created ;;
  let timestamp := Number_toString (created * 1000)%float in
  let amount := safeFloat order "amount" None in
  let price := safeFloat order "price" None in
  let remaining := safeFloat order "remainingAmount" None in
  let filled := (to_number amount - to_number remaining)%float in
  let cost := (to_number price * filled)%float in
  '(symbol, feeCurrency) <-
    (if defined market then
       symbol <- get market "symbol" ;;
       quote <- get market "quote" ;;
       Ok (symbol, quote)
     else Ok (VUndefined, VUndefined)) ;;
  let fee := {| Fee.cost := VUndefined; Fee.currency := feeCurrency |} in
  raw <- get order "trades" ;;
  trades <- parseOrder_trades raw market ;;
  Ok {| Order.id := id;
        Order.datetime := iso8601 (VStr timestamp);
        Order.timestamp := timestamp;
        Order.lastTradeTimestamp := VUndefined;
        Order.status := status;
        Order.symbol := symbol;
        Order.type := "limit";
        Order.side := side;
        Order.price := price;
        Order.cost := cost;
        Order.amount := amount;
        Order.filled := filled;
        Order.remaining := remaining;
        Order.trades := trades;
        Order.fee := fee;
        Order.info := order |}.

(** ** sign *)

(** The credentials and the clock of the instance. *)
Record Instance : Type := {
  apiKey : option string;
  secret : option string;
  milliseconds : Z
}.

Definition nonce (this : Instance) : Z := milliseconds this.

Definition truthy (x : option string) : bool :=
  match x with
  | Some s => negb (String.eqb s "")
  | None => false
  end.

(** Modelled from the spec: [Exchange.checkRequiredCredentials]
    (js/base/Exchange.js is not in the fragment) fails when a credential the
    connector declares as required ([apiKey], [secret]) is absent. *)
Definition checkRequiredCredentials (this : Instance) : result unit :=
  if negb (truthy (apiKey this)) then Throw (Raised CredentialsRequired (VStr "apiKey"))
  else if negb (truthy (secret this)) then Throw (Raised CredentialsRequired (VStr "secret"))
  else Ok tt.

(** [Exchange.omit]: the object without the listed keys. *)
Definition omit (params : list (string * value)) (keys : list string)
  : list (string * value) :=
  filter (fun kv => negb (existsb (String.eqb (fst kv)) keys)) params.

Definition api_url : string := "https://api.tokens.net/".

(** The string of a value that is [undefined] or a string. *)
Definition string_of (x : option string) : string :=
  match x with
  | Some s => s
  | None => "undefined"
  end.

Definition sign (this : Instance) (path : string) (api : string) (method : value)
  (params : list (string * value)) (headers : value) (body : value)
  : result Request.t :=
  let url := api_url ++ implodeParams path params in
  let query := omit params (extractParams path) in
  if String.eqb api "public" then
    let url :=
      match query with
      | [] => url
      | _ => url ++ "?" ++ urlencode query
      end in
    Ok {| Request.url := url; Request.method := method;
          Request.body := body; Request.headers := headers |}
  else
    _ <- checkRequiredCredentials this ;;
    let nonce := Z_to_string (nonce this) in
    let auth := nonce ++ string_of (apiKey this) in
    let signature := hmac auth (string_of (secret this)) in
    let body := VStr (urlencode query) in
    let headers :=
      VObj [ ("key", of_option VStr (apiKey this));
             ("signature", VStr (toUpperCase signature));
             ("nonce", VStr nonce);
             ("Content-Type", VStr "application/x-www-form-urlencoded") ] in
    Ok {| Request.url := url; Request.method := method;
          Request.body := body; Request.headers := headers |}.

(** ** handleErrors *)

(** The ['exceptions'] table of [describe]. *)
Definition exceptions : list (string * ErrorClass) :=
  [ ("100", ArgumentsRequired); ("101", ArgumentsRequired);
    ("102", ArgumentsRequired); ("110", InvalidNonce); ("111", InvalidNonce);
    ("120", BadRequest); ("121", BadRequest); ("130", BadRequest);
    ("140", BadRequest); ("150", BadRequest); ("160", BadRequest);
    ("429", DDoSProtection) ].

(** [new exceptions[error] (message)] followed by [throw]: an entry of the
    table is an error class; [Object.prototype.constructor] is [Object], whose
    instance is thrown as it is; no other inherited property is a
    constructor. *)
Definition throw_new (error : string) (message : value) : exception :=
  match assoc error exceptions with
  | Some cls => Raised cls message
  | None =>
      if String.eqb error "constructor"
      then ThrownObject message
      else TypeError
  end.

Definition looks_like_json (body : string) : bool :=
  match body with
  | String c _ => Ascii.eqb c "{" || Ascii.eqb c "["
  | EmptyString => false
  end.

(** [handleErrors]: [Ok tt] when it returns without throwing. *)
Definition handleErrors (httpCode reason url method headers : value)
  (body : value) (response : value) : result unit :=
  match body with
  | VStr body =>
      if (List.length (units body) <? 2)%nat then Ok tt
      else if looks_like_json body then
        error <- safeString response "errorCode" None ;;
        let error := string_of error in
        if has_property error exceptions then
          message <- get response "reason" ;;
          Throw (throw_new error message)
        else
          status <- safeString response "status" None ;;
          if is_string (of_option VStr status) "error" then
            message <- get response "reason" ;;
            Throw (Raised ExchangeError message)
          else Ok tt
      else Ok tt
  | _ => Ok tt
  end.

(** ** fetchOrderStatus and fetchOrder *)

(** [fetchOrderStatus], given the response [order] of the order endpoint. *)
Definition fetchOrderStatus (order : value) : result value :=
  status <- safeString order "orderStatus" None ;;
  parseOrderStatus (of_option VStr status).

(** [fetchOrder], given the response [order] of the order endpoint:
    [parseOrder] is called with no market. *)
Definition fetchOrder (markets_by_id : value) (order : value) : result Order.t :=
  parseOrder markets_by_id order VUndefined.


(** ** fetchBalance *)

(** A key that is an array index: a canonical decimal below 2^32 - 1.  An
    object enumerates such keys first, in ascending order. *)
Definition array_index (k : string) : option Z :=
  match k with
  | EmptyString => None
  | String "0" EmptyString => Some 0%Z
  | String "0" _ => None
  | _ => if all_digits k
         then let '(n, _, _) := read_digits k 0%Z 0 in
              if (n <? 4294967295)%Z then Some n else None
         else None
  end.

Fixpoint insert_index (n : Z) (k : string) (v : value)
  (props : list (string * value)) : list (string * value) :=
  match props with
  | [] => [(k, v)]
  | (k', v') :: rest =>
      match array_index k' with
      | Some n' => if (n' <? n)%Z then (k', v') :: insert_index n k v rest
                   else (k, v) :: props
      | None => (k, v) :: props
      end
  end.

Fixpoint replace_value (k : string) (v : value)
  (props : list (string * value)) : list (string * value) :=
  match props with
  | [] => []
  | (k', v') :: rest =>
      if String.eqb k k' then (k', v) :: rest
      else (k', v') :: replace_value k v rest
  end.

(** [o[k] = v] on the own properties of a plain object: an existing
    property keeps its place, a new index goes among the indices, any other
    new key goes last.  (Assigning to [__proto__] changes the prototype,
    which the value type does not record.) *)
Definition set_property (props : list (string * value)) (k : string) (v : value)
  : list (string * value) :=
  match assoc k props with
  | Some _ => replace_value k v props
  | None =>
      match array_index k with
      | Some n => insert_index n k v props
      | None => props ++ [(k, v)]
      end
  end.

(** [Object.keys (o)]: the own enumerable property names. *)
Definition Object_keys (o : value) : result (list string) :=
  match o with
  | VUndefined | VNull => Throw TypeError
  | VObj props => Ok (map fst props)
  | VArr xs => Ok (map nat_key (seq 0 (List.length xs)))
  | VStr s => Ok (map nat_key (seq 0 (List.length (units s))))
  | VNum _ | VBool _ | VProto _ => Ok []
  end.

(** The request [privateGetPrivateBalanceCurrency ({ currency })], a method
    the base class generates from the endpoint list: the exchange's answer
    for the currency, or the error the request raises. *)
Variable privateGetPrivateBalanceCurrency : value -> result value.
(** [Exchange.parseBalance], which completes the balance structure. *)
Variable parseBalance : value -> value.

(** Modelled from the spec: [Exchange.account ()] (js/base/Exchange.js is not
    in the fragment) is a fresh per-currency record of [free], [used] and
    [total], all unset. *)
Definition account : list (string * value) :=
  [ ("free", VUndefined); ("used", VUndefined); ("total", VUndefined) ].

(** The global [parseFloat] on any value: its string is read. *)
Definition parseFloat_value (v : value) : result float :=
  s <- ToString v ;; Ok (parseFloat s).

(** The account built from one response: [free] from [available], [used]
    zero, [total] from [total]. *)
Definition account_of (res : value) : result value :=
  available <- get res "available" ;;
  free <- parseFloat_value available ;;
  let account := set_property account "free" (VNum free) in
  let account := set_property account "used" (VNum 0) in
  total <- get res "total" ;;
  total <- parseFloat_value total ;;
  let account := set_property account "total" (VNum total) in
  Ok (VObj account).

(** The loop of [fetchBalance] over the currency codes, with the result
    object built so far ([balance]). *)
Fixpoint fetchBalance_loop (keys : list string) (balance : list (string * value))
  : result (list (string * value)) :=
  match keys with
  | [] => Ok balance
  | key :: keys' =>
      res <- privateGetPrivateBalanceCurrency (VStr key) ;;
      account <- account_of res ;;
      let balance := set_property balance key account in
      info <- get (VObj balance) "info" ;;
      match info with
      | VArr collected =>
          fetchBalance_loop keys'
            (set_property balance "info" (VArr (collected ++ [res])))
      | _ => Throw TypeError
      end
  end.

(** The object [fetchBalance] hands to [parseBalance]; [currencies] is the
    instance's currency table. *)
Definition fetchBalance_result (currencies : value) (currency : value)
  : result (list (string * value)) :=
  match currency with
  | VUndefined =>
      let balance := set_property [] "info" (VArr []) in
      keys <- Object_keys currencies ;;
      fetchBalance_loop keys balance
  | _ =>
      res <- privateGetPrivateBalanceCurrency currency ;;
      account <- account_of res ;;
      code <- get res "currency" ;;
      code <- ToString code ;;
      let balance := set_property [] code account in
      let balance := set_property balance "info" res in
      Ok balance
  end.

Definition fetchBalance (currencies : value) (currency : value) : result value :=
  balance <- fetchBalance_result currencies currency ;;
  Ok (parseBalance (VObj balance)).


(** ** Notions the properties use *)

(** A balance response that is there and whose [available] and [total] have
    a string. *)
Definition readable_balance (r : value) : Prop :=
  is_nullish r = false /\
  forall f v, In f ["available"; "total"] -> get r f = Ok v ->
              exists s, ToString v = Ok s.

(** A key that is neither [length], nor an array index, nor a name inherited
    from [Object.prototype]: read from a value that is not an object, it
    gives [undefined]. *)
Definition plain_key (k : string) : bool :=
  negb (String.eqb k "length") && negb (inherited_name k)
  && match index_of_key k with Some _ => false | None => true end.

(** A value that is no object, array or function. *)
Definition is_primitive (v : value) : bool :=
  match v with
  | VArr _ | VObj _ | VProto _ => false
  | _ => true
  end.

(** The binary64 number [f] is [10^-p] exactly: its value [m * 2^e], taken
    as a rational number, is [1 / 10^p]. *)
Definition exact_power_of_ten (f : float) (p : Z) : Prop :=
  exists m e,
    Prim2SF f = S754_finite false m e /\ (e <= 0)%Z /\
    (Zpos m * 10 ^ p = 2 ^ (- e))%Z.

(** ** Sample payloads *)

Definition dpp_eth_record : value :=
  VObj [ ("title", VStr "DPP/ETH"); ("priceDecimals", VNum 4);
         ("amountDecimals", VNum 8); ("minAmount", VStr "0.001 ETH");
         ("trading", VStr "Enabled") ].

Definition dpp_eth_market : value :=
  VObj [ ("id", VStr "dppeth"); ("symbol", VStr "DPP/ETH");
         ("base", VStr "DPP"); ("quote", VStr "ETH");
         ("baseId", VStr "dpp"); ("quoteId", VStr "eth");
         ("symbolId", VStr "dpp_eth") ].

Definition sample_catalog : value := VObj [ ("dppeth", dpp_eth_market) ].

Definition sample_trade (datetime : string) (price amount : float) : value :=
  VObj [ ("id", VStr "7"); ("datetime", VStr datetime);
         ("price", VNum price); ("amount", VNum amount);
         ("type", VStr "buy") ].

Definition sample_order : value :=
  VObj [ ("id", VStr "41"); ("currencyPair", VStr "dppeth");
         ("orderStatus", VStr "open"); ("created", VNum 1546300800);
         ("type", VStr "buy"); ("amount", VNum 5);
         ("remainingAmount", VNum 3); ("price", VNum 0.5);
         ("trades", VArr [ sample_trade "1546300900" 0.5 2 ]) ].

Definition sample_trades : value :=
  VObj [ ("trades", VArr [ sample_trade "300" 2 3; sample_trade "100" 0.5 4;
                           sample_trade "200" 1 1 ]) ].

Definition single_trade : value :=
  VObj [ ("trades", VArr [ sample_trade "100" 0.5 4 ]) ].

Definition sample_ticker : value :=
  VObj [ ("timestamp", VStr "1546300800"); ("volume", VNum 10);
         ("vwap", VNum 2) ].

Definition sample_ticker_strings : value :=
  VObj [ ("timestamp", VStr "1546300800"); ("volume", VStr "10");
         ("vwap", VStr "2") ].

Definition sample_ticker_no_vwap : value :=
  VObj [ ("timestamp", VStr "1546300800"); ("volume", VNum 10) ].

Definition invalid_order_id_response : value :=
  VObj [ ("errorCode", VStr "131"); ("reason", VStr "Invalid order id") ].

Definition sample_instance : Instance :=
  {| apiKey := Some "KEY"; secret := Some "SECRET";
     milliseconds := 1546300800123 |}.

Definition unsplit_record : value :=
  VObj [ ("title", VStr "DPPETH"); ("priceDecimals", VNum 4);
         ("amountDecimals", VNum 8); ("minAmount", VStr "0.001 ETH");
         ("trading", VStr "Enabled") ].

Definition pair_trade : value :=
  VObj [ ("id", VStr "8"); ("datetime", VStr "100"); ("price", VNum 9);
         ("dpp_eth", VNum 0.5); ("dpp", VNum 4); ("eth", VNum (-2));
         ("type", VStr "sell") ].

Definition sample_order_strings : value :=
  VObj [ ("id", VStr "43"); ("currencyPair", VStr "dppeth");
         ("orderStatus", VStr "open"); ("created", VStr "1546300800");
         ("type", VStr "sell"); ("amount", VStr "5");
         ("remainingAmount", VStr "3"); ("price", VStr "0.5");
         ("trades", VArr []) ].

Definition order_without_amount : value :=
  VObj [ ("id", VStr "42"); ("currencyPair", VStr "dppeth");
         ("orderStatus", VStr "filled"); ("created", VNum 1546300800);
         ("remainingAmount", VNum 3); ("price", VNum 0.5);
         ("trades", VArr []) ].

Definition nonce_error_response : value :=
  VObj [ ("errorCode", VStr "111"); ("status", VStr "error");
         ("reason", VStr "stale nonce") ].

Definition rate_limit_response : value :=
  VObj [ ("errorCode", VNum 429); ("reason", VStr "API rate limit exceeded") ].

Definition status_error_response : value :=
  VObj [ ("status", VStr "error"); ("reason", VStr "x") ].

Definition sample_currencies : value :=
  VObj [ ("DPP", VObj []); ("ETH", VObj []) ].

Definition currencies_with_info : value :=
  VObj [ ("DPP", VObj []); ("info", VObj []) ].

Definition sample_balance (currency : value) : value :=
  VObj [ ("currency", currency); ("available", VStr "1.5");
         ("total", VStr "2") ].

Definition sample_balance_request (currency : value) : result value :=
  Ok (sample_balance currency).

Definition failing_balance_request (currency : value) : result value :=
  if is_string currency "ETH"
  then Throw (Raised DDoSProtection (VStr "API rate limit exceeded"))
  else Ok (sample_balance currency).

(** A request that answers with the balance of DPP whatever is asked. *)
Definition mislabelled_balance_request (currency : value) : result value :=
  Ok (sample_balance (VStr "DPP")).

Definition no_parseBalance : value -> value := fun balance => balance.


(** A host that answers nothing, to run the connector on the samples. *)
Definition no_string : value -> string := fun _ => "".
Definition no_number : value -> float := fun _ => nan.
Definition no_string_object : value -> option string := fun _ => None.
Definition no_number_object : value -> option float := fun _ => None.
Definition no_case : string -> string := fun s => s.
Definition no_pow : float -> float -> float := fun _ _ => nan.

(** A [Math.pow] for the samples, one that rounds to the nearest binary64
    number: 1 for a zero exponent, as every [Math.pow] gives, and the
    numbers nearest to 10^-4 and 10^-8. *)
Definition sample_pow (x y : float) : float :=
  if (y =? 0)%float then 1%float
  else if (x =? 10)%float && (y =? -4)%float then 0.0001%float
  else if (x =? 10)%float && (y =? -8)%float then 0.00000001%float
  else nan.
Definition no_date : value -> value := fun _ => VUndefined.
Definition no_hmac : string -> string -> string := fun _ _ => "".
Definition no_urlencode : list (string * value) -> string := fun _ => "".
Definition no_implode : string -> list (string * value) -> string := fun path _ => path.
Definition no_extract : string -> list string := fun _ => [].

(** * Properties *)

(** ** The error result *)

Lemma bind_Ok {A B : Type} (r : result A) (k : A -> result B) (b : B) :
  bind r k = Ok b -> exists a, r = Ok a /\ k a = Ok b.
Proof.
  destruct r as [a|e]; simpl; intros H; [eauto | discriminate].
Qed.

Tactic Notation "bind_inv" hyp(H) "as" ident(a) ident(E) :=
  apply bind_Ok in H; destruct H as (a & E & H).

Lemma as_string_Ok (v : value) (s : string) : as_string v = Ok s -> v = VStr s.
Proof.
  destruct v; simpl; intros H; try discriminate; congruence.
Qed.

Lemma mapM_Forall2 {A B : Type} (f : A -> result B) (l : list A) (l' : list B) :
  mapM f l = Ok l' -> Forall2 (fun a b => f a = Ok b) l l'.
Proof.
  revert l'; induction l as [|a l IH]; simpl; intros l' H.
  - injection H as <-. constructor.
  - bind_inv H as b Hb. bind_inv H as bs Hbs. injection H as <-.
    constructor; auto.
Qed.

Lemma mapM_total {A B : Type} (f : A -> result B) (l : list A) :
  Forall (fun a => exists b, f a = Ok b) l -> exists l', mapM f l = Ok l'.
Proof.
  induction 1 as [|a l (b & Hb) _ (l' & IH)]; simpl.
  - eauto.
  - rewrite Hb, IH. simpl. eauto.
Qed.

(** ** Strings *)

Lemma split_without (sep : ascii) (s : string) :
  occurs sep s = false -> split sep s = [s].
Proof.
  induction s as [|c s IH]; simpl; intros H; [reflexivity|].
  apply orb_false_iff in H as [Hc Hs].
  rewrite Hc, (IH Hs). reflexivity.
Qed.

Lemma split_two (sep : ascii) (b q : string) :
  occurs sep b = false -> occurs sep q = false ->
  split sep (b ++ String sep q) = [b; q].
Proof.
  intros Hb Hq. induction b as [|c b IH]; simpl in *.
  - rewrite Ascii.eqb_refl, (split_without _ _ Hq). reflexivity.
  - apply orb_false_iff in Hb as [Hc Hb].
    rewrite Hc, (IH Hb). reflexivity.
Qed.

(** ** Property access *)

Lemma get_total (o : value) (k : string) :
  is_nullish o = false -> exists v, get o k = Ok v.
Proof.
  destruct o as [| |b|m|s|xs|props|name]; simpl; intros H;
    try discriminate; eauto.
  destruct (assoc k props); eauto.
Qed.

Lemma chars_strings (s : string) :
  Forall (fun v => exists c, v = VStr c) (chars s).
Proof.
  unfold chars. apply Forall_forall. intros v Hv.
  apply in_map_iff in Hv as (c & <- & _). eauto.
Qed.

(** A string that is not empty has a first character. *)
Lemma units_not_nil (c : ascii) (s : string) : units (String c s) <> [].
Proof.
  cbn [units].
  destruct (N_of_ascii c <? 192)%N; [discriminate|].
  destruct (N_of_ascii c <? 224)%N; [destruct s; discriminate|].
  destruct (N_of_ascii c <? 240)%N.
  - destruct s as [|c1 [|c2 s3]]; discriminate.
  - destruct s as [|c1 [|c2 [|c3 s4]]]; discriminate.
Qed.

(** A body that starts with a brace or a bracket has fewer than two
    characters exactly when it has fewer than two bytes. *)
Lemma units_length_json (text : string) :
  looks_like_json text = true ->
  (List.length (units text) <? 2)%nat = (String.length text <? 2)%nat.
Proof.
  destruct text as [|c rest]; [discriminate|]. cbn [looks_like_json].
  intros H.
  assert (Hc : (N_of_ascii c <? 192)%N = true).
  { apply orb_true_iff in H as [H|H]; apply Ascii.eqb_eq in H; subst c;
      reflexivity. }
  cbn [units]. rewrite Hc.
  destruct rest as [|d rest]; [reflexivity|].
  pose proof (units_not_nil d rest) as Hn.
  destruct (units (String d rest)); [contradiction | reflexivity].
Qed.

(** A plain key read from any value reads what the defensive reader of the
    base class reads. *)
Lemma get_prop (o : value) (k : string) (v : value) :
  plain_key k = true -> get o k = Ok v -> prop o k = v.
Proof.
  unfold plain_key. intros Hk H.
  apply andb_true_iff in Hk as [Hk Hindex].
  apply andb_true_iff in Hk as [Hlength Hinherited].
  apply negb_true_iff in Hlength, Hinherited.
  assert (Hi : inherited k = VUndefined)
    by (unfold inherited; rewrite Hinherited; reflexivity).
  unfold prop.
  destruct o as [| |b|m|s|xs|props|name]; simpl in *; try discriminate;
    try (rewrite Hi in H; congruence).
  - unfold element in H. rewrite Hlength in H.
    destruct (index_of_key k); [discriminate|].
    rewrite Hi in H. congruence.
  - congruence.
  - rewrite H. reflexivity.
Qed.

Lemma prop_get (o : value) (k : string) (v : value) :
  isObject o = true -> get o k = Ok v -> prop o k = v.
Proof.
  intros Ho H. unfold prop. rewrite Ho, H. reflexivity.
Qed.

(** A field with a numeric reading, a number or a string [parseFloat]
    reads, is read as that number; a field without one gives the default. *)
Lemma safeFloat_reading (o : value) (k : string) (v : value) (d : option float) :
  plain_key k = true -> get o k = Ok v -> is_finite (asFloat v) = true ->
  safeFloat o k d = Some (asFloat v).
Proof.
  intros Hk H Hv. unfold safeFloat.
  rewrite (get_prop _ _ _ Hk H), Hv. reflexivity.
Qed.

Lemma safeFloat_no_reading (o : value) (k : string) (v : value) (d : option float) :
  plain_key k = true -> get o k = Ok v -> is_finite (asFloat v) = false ->
  safeFloat o k d = d.
Proof.
  intros Hk H Hv. unfold safeFloat.
  rewrite (get_prop _ _ _ Hk H), Hv. reflexivity.
Qed.

Lemma safeFloat_field (o : value) (k : string) (v : value) (d : option float) :
  isObject o = true -> get o k = Ok v -> is_finite (asFloat v) = true ->
  safeFloat o k d = Some (asFloat v).
Proof.
  intros Ho H Hv. unfold safeFloat. rewrite (prop_get _ _ _ Ho H), Hv.
  reflexivity.
Qed.

Lemma safeFloat_undefined (o : value) (k : string) (d : option float) :
  get o k = Ok VUndefined -> safeFloat o k d = d.
Proof.
  intros H. unfold safeFloat, prop. rewrite H.
  destruct (isObject o); reflexivity.
Qed.

(** ** Conversions *)

Lemma bind_Throw {A B : Type} (r : result A) (k : A -> result B) (e : exception) :
  bind r k = Throw e -> r = Throw e \/ exists a, r = Ok a /\ k a = Throw e.
Proof.
  destruct r as [a|e']; simpl; intros H; [right; eauto | left].
  injection H as <-. reflexivity.
Qed.

Lemma get_Throw (o : value) (k : string) (e : exception) :
  get o k = Throw e -> e = TypeError.
Proof.
  destruct o as [| |b|m|s|xs|props|name]; simpl; intros H;
    try discriminate; try congruence.
  destruct (assoc k props); discriminate.
Qed.

Lemma as_string_Throw (v : value) (e : exception) :
  as_string v = Throw e -> e = TypeError.
Proof.
  destruct v; simpl; intros H; try discriminate; congruence.
Qed.

Lemma of_host_Throw {A : Type} (x : option A) (e : exception) :
  of_host x = Throw e -> e = TypeError.
Proof.
  destruct x; simpl; intros H; [discriminate | congruence].
Qed.

(** Induction on a value, with the elements of an array and the properties
    of an object in reach. *)
Lemma value_nested_ind (P : value -> Prop) :
  P VUndefined -> P VNull -> (forall b, P (VBool b)) ->
  (forall n, P (VNum n)) -> (forall s, P (VStr s)) ->
  (forall xs, Forall P xs -> P (VArr xs)) ->
  (forall props, Forall (fun kv => P (snd kv)) props -> P (VObj props)) ->
  (forall name, P (VProto name)) ->
  forall v, P v.
Proof.
  intros Hu Hn Hb Hnum Hs Ha Ho Hp. fix IH 1.
  intros [| |b|n|s|xs|props|name];
    [exact Hu | exact Hn | apply Hb | apply Hnum | apply Hs | | | apply Hp].
  - apply Ha.
    exact ((fix go (xs : list value) : Forall P xs :=
              match xs with
              | [] => Forall_nil P
              | x :: xs' => Forall_cons x (IH x) (go xs')
              end) xs).
  - apply Ho.
    exact ((fix go (props : list (string * value))
              : Forall (fun kv => P (snd kv)) props :=
              match props with
              | [] => Forall_nil _
              | kv :: props' => Forall_cons kv (IH (snd kv)) (go props')
              end) props).
Qed.

(** A conversion that fails throws a [TypeError], nothing else. *)
Lemma ToString_Throw (v : value) (e : exception) :
  ToString v = Throw e -> e = TypeError.
Proof.
  revert e. induction v as [| |b|n|s|xs IH|props _|name] using value_nested_ind;
    intros e; try discriminate.
  - destruct b; discriminate.
  - cbn [ToString]. induction IH as [|x xs Hx _ IHxs]; [discriminate|].
    intros H. apply bind_Throw in H as [H|(s & _ & H)].
    + destruct x; try discriminate; exact (Hx _ H).
    + destruct xs; [discriminate|].
      apply bind_Throw in H as [H|(rest & _ & H)]; [|discriminate].
      exact (IHxs H).
  - cbn [ToString].
    destruct (assoc "toString" props) as [[]|]; try discriminate;
      try (destruct (assoc "valueOf" props) as [[]|]; try congruence);
      apply of_host_Throw.
Qed.

Lemma ToNumber_Throw (v : value) (e : exception) :
  ToNumber v = Throw e -> e = TypeError.
Proof.
  destruct v as [| |b|n|s|xs|props|name]; cbn [ToNumber]; try discriminate.
  - destruct b; discriminate.
  - intros H. apply bind_Throw in H as [H|(s & _ & H)]; [|discriminate].
    exact (ToString_Throw _ _ H).
  - destruct (assoc "valueOf" props) as [[]|];
      try apply of_host_Throw;
      destruct (assoc "toString" props) as [[]|]; try discriminate;
      try congruence; apply of_host_Throw.
Qed.

Lemma parseInt_Throw (v : value) (e : exception) :
  parseInt v = Throw e -> e = TypeError.
Proof.
  unfold parseInt. intros H.
  apply bind_Throw in H as [H|(s & _ & H)]; [|discriminate].
  exact (ToString_Throw _ _ H).
Qed.

Lemma parseFloat_value_Throw (v : value) (e : exception) :
  parseFloat_value v = Throw e -> e = TypeError.
Proof.
  unfold parseFloat_value. intros H.
  apply bind_Throw in H as [H|(s & _ & H)]; [|discriminate].
  exact (ToString_Throw _ _ H).
Qed.

Lemma get_at_Throw (o key : value) (e : exception) :
  get_at o key = Throw e -> e = TypeError.
Proof.
  unfold get_at. intros H.
  destruct o; try congruence;
    (apply bind_Throw in H as [H|(k & _ & H)];
     [exact (ToString_Throw _ _ H) | exact (get_Throw _ _ _ H)]).
Qed.

Lemma safeString_Throw (o : value) (k : string) (d : option string) (e : exception) :
  safeString o k d = Throw e -> e = TypeError.
Proof.
  unfold safeString. intros H.
  destruct (prop o k) eqn:E; try discriminate;
    (apply bind_Throw in H as [H|(s & _ & H)];
     [exact (ToString_Throw _ _ H) | discriminate]).
Qed.

Lemma safeString2_Throw (o : value) (k1 k2 : string) (d : option string)
  (e : exception) :
  safeString2 o k1 k2 d = Throw e -> e = TypeError.
Proof.
  unfold safeString2. intros H.
  apply bind_Throw in H as [H|(first & _ & H)];
    [exact (safeString_Throw _ _ _ _ H)|].
  destruct first; [discriminate | exact (safeString_Throw _ _ _ _ H)].
Qed.

Lemma safeFloat_at_Throw (o key : value) (d : option float) (e : exception) :
  safeFloat_at o key d = Throw e -> e = TypeError.
Proof.
  unfold safeFloat_at. intros H. destruct (isObject o); [|discriminate].
  apply bind_Throw in H as [H|(k & _ & H)]; [|discriminate].
  exact (ToString_Throw _ _ H).
Qed.

Lemma parseOrderStatus_Throw (status : value) (e : exception) :
  parseOrderStatus status = Throw e -> e = TypeError.
Proof.
  unfold parseOrderStatus. intros H.
  apply bind_Throw in H as [H|(key & _ & H)]; [exact (ToString_Throw _ _ H)|].
  destruct (has_property key statuses); [|discriminate].
  destruct (assoc key statuses); discriminate.
Qed.

(** A value that is no object, array or function has a string and a
    number. *)
Lemma ToString_primitive (v : value) :
  is_primitive v = true -> exists s, ToString v = Ok s.
Proof.
  destruct v as [| |[]|n|s|xs|props|name]; simpl; intros H;
    try discriminate; eauto.
Qed.

Lemma ToNumber_primitive (v : value) :
  is_primitive v = true -> exists n, ToNumber v = Ok n.
Proof.
  destruct v as [| |[]|n|s|xs|props|name]; simpl; intros H;
    try discriminate; eauto.
Qed.

(** The defensive string reader, on a field that is absent, on one that is
    a string, and on one that has a string. *)
Lemma safeString_undefined (o : value) (k : string) (d : option string) :
  get o k = Ok VUndefined -> safeString o k d = Ok d.
Proof.
  intros H. unfold safeString, prop. rewrite H.
  destruct (isObject o); reflexivity.
Qed.

Lemma safeString_field (o : value) (k s : string) (d : option string) :
  isObject o = true -> get o k = Ok (VStr s) -> safeString o k d = Ok (Some s).
Proof.
  intros Ho H. unfold safeString. rewrite (prop_get _ _ _ Ho H). reflexivity.
Qed.

Lemma safeString_not_object (o : value) (k : string) (d : option string) :
  isObject o = false -> safeString o k d = Ok d.
Proof.
  intros Ho. unfold safeString, prop. rewrite Ho. reflexivity.
Qed.

Lemma safeString_total (o : value) (k : string) (d : option string) :
  (exists s, ToString (prop o k) = Ok s) -> exists x, safeString o k d = Ok x.
Proof.
  intros (s & Hs). unfold safeString.
  destruct (prop o k); eauto; rewrite Hs; cbn [bind]; eauto.
Qed.

Lemma safeString2_total (o : value) (k1 k2 : string) (d : option string) :
  (exists s, ToString (prop o k1) = Ok s) ->
  (exists s, ToString (prop o k2) = Ok s) ->
  exists x, safeString2 o k1 k2 d = Ok x.
Proof.
  intros H1 H2. unfold safeString2.
  destruct (safeString_total o k1 None H1) as (first & ->). cbn [bind].
  destruct first; [eauto | apply safeString_total; exact H2].
Qed.

(** ** Numbers read from strings *)

Example parseFloat_samples :
  parseFloat "0.001" = 0.001%float /\
  parseFloat "0.1" = 0.1%float /\
  parseFloat " 12abc" = 12%float /\
  parseFloat "1e-5" = 1e-5%float /\
  parseFloat "-.5" = (-0.5)%float /\
  parseFloat "1e400" = infinity /\
  is_nan (parseFloat "abc") = true /\
  is_nan (parseFloat ".") = true.
Proof.
  repeat split; reflexivity.
Qed.

Example parseInt_samples :
  parseInt_string "1546300800" = 1546300800%float /\
  parseInt_string "12px" = 12%float /\
  parseInt_string "0x1f" = 31%float /\
  is_nan (parseInt_string "") = true.
Proof.
  repeat split; reflexivity.
Qed.

(** ** The market catalog *)

Lemma split_not_nil (sep : ascii) (s : string) : split sep s <> [].
Proof.
  destruct s as [|c s]; simpl; [discriminate|].
  destruct (Ascii.eqb c sep); [discriminate|].
  destruct (split sep s); discriminate.
Qed.

(** A string with a separator in it splits into two pieces at least. *)
Lemma split_occurs (sep : ascii) (s : string) :
  occurs sep s = true -> exists p q ps, split sep s = p :: q :: ps.
Proof.
  induction s as [|c s IH]; simpl; [discriminate|].
  destruct (Ascii.eqb c sep) eqn:Hc.
  - intros _. pose proof (split_not_nil sep s) as Hn.
    destruct (split sep s) as [|q ps]; [contradiction | eauto].
  - cbn [orb]. intros H. destruct (IH H) as (p & q & ps & ->). eauto.
Qed.

(** What one pass of the loop of [fetchMarkets] reads and builds. *)
Lemma fetchMarkets_entry_Ok (record : value) (m : Market.t) :
  fetchMarkets_entry record = Ok m ->
  exists title quote priceDecimals amountDecimals minAmount trading,
    get record "title" = Ok (VStr title) /\
    nth_error (split "/" title) 1 = Some quote /\
    get record "priceDecimals" = Ok priceDecimals /\
    get record "amountDecimals" = Ok amountDecimals /\
    get record "minAmount" = Ok (VStr minAmount) /\
    get record "trading" = Ok trading /\
    Market.symbol m = title /\
    Market.base m = nth 0 (split "/" title) "" /\
    Market.quote m = quote /\
    Market.baseId m = toLowerCase (Market.base m) /\
    Market.quoteId m = toLowerCase quote /\
    Market.id m = Market.baseId m ++ Market.quoteId m /\
    Market.symbolId m = Market.baseId m ++ "_" ++ Market.quoteId m /\
    Market.info m = record /\
    Market.active m = is_string trading "Enabled" /\
    Market.precision m = {| p_amount := priceDecimals; p_price := amountDecimals |} /\
    exists amountDigits priceDigits,
      ToNumber priceDecimals = Ok amountDigits /\
      ToNumber amountDecimals = Ok priceDigits /\
      min (amount (Market.limits m)) = Math_pow 10 (- amountDigits) /\
      min (price (Market.limits m)) = Math_pow 10 (- priceDigits) /\
      min (cost (Market.limits m)) = parseFloat (nth 0 (split " " minAmount) "").
Proof.
  unfold fetchMarkets_entry. intros H.
  bind_inv H as title0 Ht. bind_inv H as title Hs.
  apply as_string_Ok in Hs. subst title0.
  bind_inv H as quote Hq. apply as_string_Ok in Hq.
  bind_inv H as pd Hpd. bind_inv H as ad Had.
  bind_inv H as ma0 Hma. bind_inv H as ma Hs.
  apply as_string_Ok in Hs. subst ma0.
  bind_inv H as tr Htr.
  bind_inv H as amountDigits Ha. bind_inv H as priceDigits Hp.
  injection H as <-.
  destruct (nth_error (split "/" title) 1) as [q|] eqn:Eq; simpl in Hq;
    [|discriminate].
  injection Hq as ->.
  exists title, quote, pd, ad, ma, tr. simpl.
  repeat (split; [assumption || reflexivity|]).
  exists amountDigits, priceDigits. repeat split; assumption.
Qed.

(** A record whose title has a slash, whose [minAmount] is a string and
    whose decimal counts have a number yields a market. *)
Lemma fetchMarkets_entry_total (record : value) (title minAmount : string)
  (priceDecimals amountDecimals : value) (pa pp : float) :
  get record "title" = Ok (VStr title) ->
  occurs "/" title = true ->
  get record "minAmount" = Ok (VStr minAmount) ->
  get record "priceDecimals" = Ok priceDecimals ->
  ToNumber priceDecimals = Ok pa ->
  get record "amountDecimals" = Ok amountDecimals ->
  ToNumber amountDecimals = Ok pp ->
  exists m, fetchMarkets_entry record = Ok m.
Proof.
  intros Ht Hslash Hm Hpd Hpa Had Hpp. unfold fetchMarkets_entry.
  rewrite Ht. cbn [bind as_string].
  destruct (split_occurs _ _ Hslash) as (p & q & ps & ->).
  cbn [nth_error of_option bind as_string].
  rewrite Hpd, Had, Hm. cbn [bind as_string].
  assert (Hn : is_nullish record = false)
    by (destruct record; try reflexivity; discriminate).
  destruct (get_total record "trading" Hn) as (tr & ->).
  cbn [bind p_amount p_price]. rewrite Hpa, Hpp. cbn [bind]. eauto.
Qed.

(** C1.  For every raw pair record whose title is "BASE/QUOTE", the market
    that [fetchMarkets] builds for it has [id = lowercase(BASE) ++
    lowercase(QUOTE)] and [symbolId = lowercase(BASE) ++ "_" ++
    lowercase(QUOTE)]; and a refresh over the single DPP/ETH record yields one
    market with id "dppeth", symbolId "dpp_eth", active, and cost minimum
    0.001. *)
Theorem fetchMarkets_ids :
  (forall markets records ms,
      Object_values markets = Ok records ->
      fetchMarkets markets = Ok ms ->
      Forall2 (fun record m =>
                 forall BASE QUOTE,
                   get record "title" = Ok (VStr (BASE ++ "/" ++ QUOTE)) ->
                   occurs "/" BASE = false ->
                   occurs "/" QUOTE = false ->
                   Market.id m = toLowerCase BASE ++ toLowerCase QUOTE /\
                   Market.symbolId m
                   = toLowerCase BASE ++ "_" ++ toLowerCase QUOTE)
              records ms)
  /\ (forall key, exists m,
         fetchMarkets (VObj [(key, dpp_eth_record)]) = Ok [m] /\
         Market.id m = "dppeth" /\
         Market.symbolId m = "dpp_eth" /\
         Market.active m = true /\
         min (cost (Market.limits m)) = 0.001%float).
Proof.
  split.
  - intros markets records ms Hv H. unfold fetchMarkets in H.
    rewrite Hv in H. simpl in H. apply mapM_Forall2 in H.
    eapply Forall2_impl; [|exact H]. clear.
    intros record m H BASE QUOTE Ht Hb Hq.
    apply fetchMarkets_entry_Ok in H
      as (title & quote & pd & ad & ma & tr & Ht' & Hquote & _ & _ & _ & _ &
          _ & Hbase & _ & HbId & HqId & Hid & Hsid & _).
    rewrite Ht in Ht'. injection Ht' as <-.
    change (BASE ++ "/" ++ QUOTE) with (BASE ++ String "/" QUOTE) in *.
    rewrite (split_two _ _ _ Hb Hq) in *. simpl in Hbase, Hquote.
    injection Hquote as <-.
    rewrite Hid, Hsid, HbId, HqId, Hbase. split; reflexivity.
  - intros key. eexists. repeat split; vm_compute; reflexivity.
Qed.

(** C6.  For every raw pair record, the market built for it has
    [precision.amount] equal to the record's [priceDecimals] field and
    [precision.price] equal to its [amountDecimals] field. *)
Theorem fetchMarkets_precision :
  forall markets records ms,
    Object_values markets = Ok records ->
    fetchMarkets markets = Ok ms ->
    Forall2 (fun record m =>
               get record "priceDecimals" = Ok (p_amount (Market.precision m)) /\
               get record "amountDecimals" = Ok (p_price (Market.precision m)))
            records ms.
Proof.
  intros markets records ms Hv H. unfold fetchMarkets in H.
  rewrite Hv in H. simpl in H. apply mapM_Forall2 in H.
  eapply Forall2_impl; [|exact H]. clear.
  intros record m H.
  apply fetchMarkets_entry_Ok in H
    as (title & quote & pd & ad & ma & tr & _ & _ & Hpd & Had & _ & _ &
        _ & _ & _ & _ & _ & _ & _ & _ & _ & Hp & _).
  rewrite Hp. simpl. split; assumption.
Qed.

(** *** Powers of ten among the binary64 numbers *)

Lemma pow2_mod5 (k : Z) : (0 <= k)%Z -> (2 ^ k mod 5 <> 0)%Z.
Proof.
  intros Hk.
  assert (H : forall n : nat,
             (1 <= 2 ^ Z.of_nat n mod 5 <= 4)%Z).
  { induction n as [|n IH]; [cbn; lia|].
    rewrite Nat2Z.inj_succ, Z.pow_succ_r by lia.
    revert IH. generalize (2 ^ Z.of_nat n)%Z. intros x.
    Z.div_mod_to_equations. lia. }
  specialize (H (Z.to_nat k)). rewrite Z2Nat.id in H by exact Hk. lia.
Qed.

(** No binary64 number is [10^-p] for [p >= 1]: a power of two is not a
    multiple of five. *)
Lemma exact_power_of_ten_none (f : float) (p : Z) :
  (1 <= p)%Z -> ~ exact_power_of_ten f p.
Proof.
  intros Hp (m & e & _ & He & H).
  apply (pow2_mod5 (- e)); [lia|]. rewrite <- H.
  replace p with (Z.succ (p - 1)) by lia. rewrite Z.pow_succ_r by lia.
  replace (Z.pos m * (10 * 10 ^ (p - 1)))%Z
    with ((Z.pos m * 2 * 10 ^ (p - 1)) * 5)%Z by ring.
  apply Z_mod_mult.
Qed.

Lemma exact_power_of_ten_one : exact_power_of_ten 1 0.
Proof.
  exists 4503599627370496%positive, (-52)%Z.
  split; [reflexivity|]. split; [lia | reflexivity].
Qed.


(** ** The ticker *)

(** C9.  The normalized ticker has [quoteVolume = baseVolume * vwap] when the
    [volume] and [vwap] fields both have a numeric reading (a finite number,
    or a string that reads as one), and no [quoteVolume] when either has
    none (absent included), never a zero; a ticker is returned exactly when
    the payload has a [timestamp] that has a string; volume 10 with vwap 2
    gives 20, as numbers and as strings, and an absent vwap gives none. *)
Theorem fetchTicker_quoteVolume :
  (forall symbol ticker t,
      fetchTicker symbol ticker = Ok t ->
      forall volume vwap,
        get ticker "volume" = Ok volume ->
        get ticker "vwap" = Ok vwap ->
        (is_finite (asFloat volume) = true ->
         is_finite (asFloat vwap) = true ->
         Ticker.baseVolume t = Some (asFloat volume) /\
         Ticker.vwap t = Some (asFloat vwap) /\
         Ticker.quoteVolume t = Some (asFloat volume * asFloat vwap)%float) /\
        (is_finite (asFloat volume) = false \/
         is_finite (asFloat vwap) = false ->
         Ticker.quoteVolume t = None))
  /\ (forall symbol ticker,
         (exists t, fetchTicker symbol ticker = Ok t) <->
         (exists ts s, get ticker "timestamp" = Ok ts /\ ToString ts = Ok s))
  /\ (forall symbol, exists t,
         fetchTicker symbol sample_ticker = Ok t /\
         Ticker.quoteVolume t = Some 20%float)
  /\ (forall symbol, exists t,
         fetchTicker symbol sample_ticker_strings = Ok t /\
         Ticker.quoteVolume t = Some 20%float)
  /\ (forall symbol, exists t,
         fetchTicker symbol sample_ticker_no_vwap = Ok t /\
         Ticker.quoteVolume t = None).
Proof.
  split; [|split; [|split; [|split]]].
  - intros symbol ticker t H volume vwap Hvolume Hvwap.
    unfold fetchTicker in H.
    bind_inv H as ts Hts. bind_inv H as seconds Hseconds.
    injection H as <-. simpl. split.
    + intros Fb Fv.
      rewrite (safeFloat_reading ticker "volume" volume None eq_refl Hvolume Fb).
      rewrite (safeFloat_reading ticker "vwap" vwap None eq_refl Hvwap Fv).
      repeat split; reflexivity.
    + intros [Fb|Fv].
      * rewrite (safeFloat_no_reading ticker "volume" volume None
                   eq_refl Hvolume Fb).
        reflexivity.
      * rewrite (safeFloat_no_reading ticker "vwap" vwap None eq_refl Hvwap Fv).
        destruct (safeFloat ticker "volume" None); reflexivity.
  - intros symbol ticker. unfold fetchTicker, parseInt. split.
    + intros (t & H). bind_inv H as ts Hts. bind_inv H as seconds Hseconds.
      bind_inv Hseconds as s Hs. eauto.
    + intros (ts & s & -> & Hs). cbn [bind]. rewrite Hs. cbn [bind]. eauto.
  - intros symbol. eexists. split; reflexivity.
  - intros symbol. eexists. split; reflexivity.
  - intros symbol. eexists. split; reflexivity.
Qed.

(** ** Orders *)

Lemma get_at_Ok (o key v : value) :
  get_at o key = Ok v -> exists k, ToString key = Ok k /\ get o k = Ok v.
Proof.
  unfold get_at. intros H.
  destruct o; try discriminate; bind_inv H as k Hk; eauto.
Qed.

Lemma get_at_key (o key : value) (k : string) :
  is_nullish o = false -> ToString key = Ok k -> get_at o key = get o k.
Proof.
  intros Ho Hk. unfold get_at.
  destruct o; try discriminate; rewrite Hk; reflexivity.
Qed.

Lemma get_Ok_not_nullish (o : value) (k : string) (v : value) :
  get o k = Ok v -> is_nullish o = false.
Proof.
  destruct o; simpl; intros H; try discriminate; reflexivity.
Qed.

(** What [parseTrade] reads and returns when it returns. *)
Lemma parseTrade_Ok (trade market : value) (t : Trade.t) :
  parseTrade trade market = Ok t ->
  exists dt price amount cost,
    get trade "datetime" = Ok dt /\
    (if defined market
     then exists symbolId baseId quoteId,
         get market "symbolId" = Ok symbolId /\
         get market "baseId" = Ok baseId /\
         get market "quoteId" = Ok quoteId /\
         get market "symbol" = Ok (Trade.symbol t) /\
         safeFloat_at trade symbolId (safeFloat trade "price" None) = Ok price /\
         safeFloat_at trade baseId (safeFloat trade "amount" None) = Ok amount /\
         safeFloat_at trade quoteId (safeFloat trade "cost" None) = Ok cost
     else Trade.symbol t = VUndefined /\
          price = safeFloat trade "price" None /\
          amount = safeFloat trade "amount" None /\
          cost = safeFloat trade "cost" None) /\
    Trade.price t = price /\
    Trade.amount t = amount /\
    Trade.cost t
    = option_map abs
        match cost, price, amount with
        | None, Some p, Some a => Some (p * a)%float
        | _, _, _ => cost
        end /\
    (exists seconds,
        parseInt dt = Ok seconds /\
        Trade.timestamp t = (seconds * 1000)%float) /\
    safeString trade "type" None = Ok (Trade.side t) /\
    safeString2 trade "tid" "id" None = Ok (Trade.id t) /\
    Trade.info t = trade.
Proof.
  unfold parseTrade. intros H.
  bind_inv H as side Hside. bind_inv H as id Hid.
  bind_inv H as dt Hdt. bind_inv H as seconds Hseconds.
  bind_inv H as fields Hf.
  destruct fields as [[[price amount] cost] symbol]. injection H as <-.
  exists dt, price, amount, cost. cbn [Trade.symbol Trade.price Trade.amount
    Trade.cost Trade.timestamp Trade.side Trade.id Trade.info].
  split; [exact Hdt|]. split.
  - destruct (defined market).
    + bind_inv Hf as symbolId Hs. bind_inv Hf as price' Hprice.
      bind_inv Hf as baseId Hb. bind_inv Hf as amount' Hamount.
      bind_inv Hf as quoteId Hq. bind_inv Hf as cost' Hcost.
      bind_inv Hf as symbol' Hsym.
      injection Hf as <- <- <- <-.
      exists symbolId, baseId, quoteId. repeat split; assumption.
    + injection Hf as <- <- <- <-. repeat split; reflexivity.
  - repeat split; try assumption; try reflexivity.
    exists seconds. split; [assumption | reflexivity].
Qed.

Lemma parseTrade_Throw (trade market : value) (e : exception) :
  parseTrade trade market = Throw e -> e = TypeError.
Proof.
  unfold parseTrade. intros H.
  apply bind_Throw in H as [H|(side & _ & H)];
    [exact (safeString_Throw _ _ _ _ H)|].
  apply bind_Throw in H as [H|(id & _ & H)];
    [exact (safeString2_Throw _ _ _ _ _ H)|].
  apply bind_Throw in H as [H|(dt & _ & H)]; [exact (get_Throw _ _ _ H)|].
  apply bind_Throw in H as [H|(seconds & _ & H)];
    [exact (parseInt_Throw _ _ H)|].
  apply bind_Throw in H as [H|(fields & _ & H)].
  - destruct (defined market); [|discriminate].
    repeat match goal with
    | H : bind _ _ = Throw _ |- _ =>
        apply bind_Throw in H; destruct H as [H|(? & _ & H)]
    | H : get _ _ = Throw _ |- _ => exact (get_Throw _ _ _ H)
    | H : safeFloat_at _ _ _ = Throw _ |- _ =>
        exact (safeFloat_at_Throw _ _ _ _ H)
    | H : Ok _ = Throw _ |- _ => discriminate H
    end.
  - destruct fields as [[[price amount] cost] symbol]. discriminate.
Qed.

Lemma parseTrade_nullish (trade market : value) :
  is_nullish trade = true \/ market = VNull ->
  parseTrade trade market = Throw TypeError.
Proof.
  intros Hbad. destruct (parseTrade trade market) as [t|e] eqn:E.
  - exfalso. apply parseTrade_Ok in E as (dt & p & a & c & Hdt & Hm & _).
    destruct Hbad as [Ht| ->].
    + apply get_Ok_not_nullish in Hdt. congruence.
    + cbn [defined] in Hm. destruct Hm as (k1 & k2 & k3 & Hk & _).
      discriminate.
  - rewrite (parseTrade_Throw _ _ _ E). reflexivity.
Qed.

Lemma safeFloat_at_total (o key : value) (d : option float) :
  (exists s, ToString key = Ok s) -> exists x, safeFloat_at o key d = Ok x.
Proof.
  intros (s & Hs). unfold safeFloat_at.
  destruct (isObject o); [rewrite Hs; cbn [bind]|]; eauto.
Qed.

(** A trade that is there, whose [type], [tid], [id] and [datetime] have a
    string, is normalized, with no market or with a market whose
    identifiers have a string. *)
Lemma parseTrade_total (trade market : value) :
  is_nullish trade = false -> market <> VNull ->
  (forall k v, In k ["type"; "tid"; "id"; "datetime"] ->
               get trade k = Ok v -> exists s, ToString v = Ok s) ->
  (forall k v, In k ["symbolId"; "baseId"; "quoteId"] ->
               get market k = Ok v -> exists s, ToString v = Ok s) ->
  exists t, parseTrade trade market = Ok t.
Proof.
  intros Ht Hm Hfields Hids.
  assert (Hprop : forall k, In k ["type"; "tid"; "id"] -> plain_key k = true ->
                            exists s, ToString (prop trade k) = Ok s).
  { intros k Hk Hplain. destruct (get_total trade k Ht) as (v & Hv).
    rewrite (get_prop _ _ _ Hplain Hv). apply (Hfields k); [|exact Hv].
    destruct Hk as [<-|[<-|[<-|[]]]]; simpl; auto. }
  unfold parseTrade.
  destruct (safeString_total trade "type" None) as (side & ->);
    [apply Hprop; simpl; auto|]. cbn [bind].
  destruct (safeString2_total trade "tid" "id" None) as (id & ->);
    [apply Hprop; simpl; auto | apply Hprop; simpl; auto|]. cbn [bind].
  destruct (get_total trade "datetime" Ht) as (dt & Hdt). rewrite Hdt.
  cbn [bind]. unfold parseInt.
  destruct (Hfields "datetime" dt) as (s & ->); [simpl; auto | exact Hdt|].
  cbn [bind].
  destruct (defined market) eqn:Hd; [|cbn [bind]; eauto].
  assert (Hn : is_nullish market = false)
    by (destruct market; try reflexivity; [discriminate | congruence]).
  destruct (get_total market "symbolId" Hn) as (v1 & H1). rewrite H1.
  cbn [bind].
  destruct (safeFloat_at_total trade v1 (safeFloat trade "price" None))
    as (p & ->); [apply (Hids "symbolId"); simpl; auto|]. cbn [bind].
  destruct (get_total market "baseId" Hn) as (v2 & H2). rewrite H2.
  cbn [bind].
  destruct (safeFloat_at_total trade v2 (safeFloat trade "amount" None))
    as (a & ->); [apply (Hids "baseId"); simpl; auto|]. cbn [bind].
  destruct (get_total market "quoteId" Hn) as (v3 & H3). rewrite H3.
  cbn [bind].
  destruct (safeFloat_at_total trade v3 (safeFloat trade "cost" None))
    as (c & ->); [apply (Hids "quoteId"); simpl; auto|]. cbn [bind].
  destruct (get_total market "symbol" Hn) as (v4 & ->).
  cbn [bind]. eauto.
Qed.

(** *** The loop over an array-like object needs no more fuel *)

Lemma nat_key_numeric (i : nat) :
  NilEmpty.uint_of_string (nat_key i) = Some (Nat.to_uint i).
Proof.
  apply NilEmpty.usu.
Qed.

Lemma nat_key_inj (i j : nat) : nat_key i = nat_key j -> i = j.
Proof.
  intros H. apply (f_equal NilEmpty.uint_of_string) in H.
  rewrite !nat_key_numeric in H. injection H as H.
  apply (f_equal Nat.of_uint) in H.
  rewrite !DecimalNat.Unsigned.of_to in H. exact H.
Qed.

Lemma nat_key_neq (i : nat) (s : string) :
  NilEmpty.uint_of_string s = None -> String.eqb (nat_key i) s = false.
Proof.
  intros H. apply String.eqb_neq. intros E.
  rewrite <- E, nat_key_numeric in H. discriminate.
Qed.

Lemma inherited_nat_key (i : nat) : inherited (nat_key i) = VUndefined.
Proof.
  unfold inherited, inherited_name, object_prototype_names. cbn [existsb].
  rewrite !nat_key_neq by reflexivity. reflexivity.
Qed.

Lemma ltb_nan (x : float) : (x <? nan)%float = false.
Proof.
  rewrite ltb_spec. change (Prim2SF nan) with S754_nan.
  unfold SFltb. destruct (Prim2SF x); reflexivity.
Qed.

Lemma assoc_In {A : Type} (k : string) (l : list (string * A)) :
  assoc k l <> None -> In k (map fst l).
Proof.
  induction l as [|[k' a] l IH]; simpl; [congruence|].
  destruct (String.eqb_spec k k') as [->|_]; auto.
Qed.

(** The indices below [i] and [length] are [i + 1] distinct own keys. *)
Lemma index_keys_bound {A : Type} (props : list (string * A)) (i : nat) :
  (forall j, j < i -> assoc (nat_key j) props <> None) ->
  assoc "length" props <> None ->
  i < List.length props.
Proof.
  intros Hi Hl.
  assert (Hnd : NoDup ("length" :: map nat_key (seq 0 i))).
  { constructor.
    - rewrite in_map_iff. intros (j & E & _).
      pose proof (nat_key_neq j "length" eq_refl) as N.
      rewrite E, String.eqb_refl in N. discriminate.
    - apply Finite.Injective_map_NoDup; [|apply seq_NoDup].
      intros x y. apply nat_key_inj. }
  assert (Hin : incl ("length" :: map nat_key (seq 0 i)) (map fst props)).
  { intros k [<-|Hk]; [apply assoc_In; assumption|].
    apply in_map_iff in Hk as (j & <- & Hj). apply in_seq in Hj.
    apply assoc_In, Hi. lia. }
  pose proof (NoDup_incl_length Hnd Hin) as H.
  simpl in H. rewrite !length_map, length_seq in H. lia.
Qed.

Lemma parseTrade_undefined (market : value) :
  parseTrade VUndefined market = Throw TypeError.
Proof.
  apply parseTrade_nullish. left. reflexivity.
Qed.

(** The fuel [parseOrder_trades] gives the loop is enough: more fuel gives
    the same result, so the branch that runs out of it is never taken. *)
Lemma parseOrder_loop_fuel (props : list (string * value)) (market : value) :
  forall fuel i,
    (forall j, j < i -> assoc (nat_key j) props <> None) ->
    List.length props <= fuel + i ->
    forall more,
      parseOrder_loop (fuel + more) i (VObj props) market
      = parseOrder_loop fuel i (VObj props) market.
Proof.
  assert (Hcond : forall i,
    (forall j, j < i -> assoc (nat_key j) props <> None) ->
    List.length props <= i ->
    forall len n, get (VObj props) "length" = Ok len ->
    ToNumber len = Ok n ->
    (of_nat i <? n)%float = false).
  { intros i Hi Hlen len n Hget Hn. simpl in Hget.
    destruct (assoc "length" props) as [v|] eqn:E.
    - pose proof (index_keys_bound props i Hi) as Hb.
      rewrite E in Hb. specialize (Hb ltac:(discriminate)). lia.
    - injection Hget as <-. cbn in Hn. injection Hn as <-. apply ltb_nan. }
  induction fuel as [|fuel IH]; intros i Hi Hlen more.
  - destruct more as [|more]; [reflexivity|].
    cbn [Nat.add parseOrder_loop].
    destruct (get (VObj props) "length") as [len|e] eqn:Hget; [|reflexivity].
    cbn [bind].
    destruct (ToNumber len) as [n|e] eqn:Hn; [|reflexivity].
    cbn [bind]. rewrite (Hcond i Hi Hlen len n eq_refl Hn). reflexivity.
  - cbn [Nat.add parseOrder_loop].
    destruct (get (VObj props) "length") as [len|e]; [|reflexivity].
    cbn [bind].
    destruct (ToNumber len) as [n|e]; [|reflexivity].
    cbn [bind]. destruct (of_nat i <? n)%float; [|reflexivity].
    destruct (get (VObj props) (nat_key i)) as [item|e] eqn:Hitem;
      [|reflexivity].
    cbn [bind].
    destruct (parseTrade item market) as [trade|e] eqn:Htrade; [|reflexivity].
    cbn [bind]. rewrite IH; [reflexivity| |lia].
    intros j Hj. destruct (Nat.eq_dec j i) as [->|Hne]; [|apply Hi; lia].
    intros Hnone. simpl in Hitem. rewrite Hnone, inherited_nat_key in Hitem.
    injection Hitem as <-. rewrite parseTrade_undefined in Htrade.
    discriminate.
Qed.

Corollary parseOrder_trades_fuel (props : list (string * value)) (market : value)
  (more : nat) :
  parseOrder_loop (List.length props + more) 0 (VObj props) market
  = parseOrder_trades (VObj props) market.
Proof.
  apply parseOrder_loop_fuel; [intros j Hj; inversion Hj | lia].
Qed.

(** What [parseOrder] reads and returns when it returns. *)
Lemma parseOrder_Ok (markets_by_id order market : value) (o : Order.t) :
  parseOrder markets_by_id order market = Ok o ->
  exists currencyPair resolved,
    get order "currencyPair" = Ok currencyPair /\
    get_at markets_by_id currencyPair = Ok resolved /\
    Order.amount o = safeFloat order "amount" None /\
    Order.price o = safeFloat order "price" None /\
    Order.remaining o = safeFloat order "remainingAmount" None /\
    Order.filled o
    = (to_number (Order.amount o) - to_number (Order.remaining o))%float /\
    Order.cost o = (to_number (Order.price o) * Order.filled o)%float /\
    Fee.cost (Order.fee o) = VUndefined /\
    (if defined resolved
     then get resolved "quote" = Ok (Fee.currency (Order.fee o)) /\
          get resolved "symbol" = Ok (Order.symbol o)
     else Fee.currency (Order.fee o) = VUndefined /\
          Order.symbol o = VUndefined) /\
    exists raw,
      get order "trades" = Ok raw /\
      parseOrder_trades raw resolved = Ok (Order.trades o).
Proof.
  unfold parseOrder. intros H.
  bind_inv H as cp Hcp. bind_inv H as resolved Hres.
  bind_inv H as status0 Hstatus0. bind_inv H as status Hstatus.
  bind_inv H as id Hid. bind_inv H as side Hside.
  bind_inv H as created0 Hcr0. bind_inv H as created Hcr.
  bind_inv H as sf Hsf.
  destruct sf as [symbol feeCurrency].
  bind_inv H as raw Hraw. bind_inv H as trades Htr. injection H as <-.
  exists cp, resolved. simpl. repeat split; auto.
  - destruct (defined resolved).
    + bind_inv Hsf as symbol' Hs. bind_inv Hsf as quote' Hq.
      injection Hsf as <- <-. split; assumption.
    + injection Hsf as <- <-. split; reflexivity.
  - exists raw. split; assumption.
Qed.

Lemma parseOrderStatus_string (status : option string) :
  exists s, parseOrderStatus (of_option VStr status) = Ok s.
Proof.
  unfold parseOrderStatus.
  destruct status as [s|]; cbn [of_option ToString bind].
  - destruct (has_property s statuses); [|eauto].
    destruct (assoc s statuses); eauto.
  - cbn. eauto.
Qed.

(** C3.  For every raw order payload whose [amount], [remainingAmount] and
    [price] have the numeric readings A, R and P (finite numbers, or strings
    that read as such), the order that [parseOrder] returns has
    [filled = A - R] and [cost = P * filled], in binary64 with no further
    adjustment; and it returns one when the pair id has a string, the
    catalog index read at it gives no [null], the status, id and type have
    a string, the creation time has a number, and [trades] is an array of
    trades that [parseTrade] normalizes. *)
Theorem parseOrder_filled_cost :
  forall markets_by_id order market amount remaining price A R P,
    get order "amount" = Ok amount ->
    asFloat amount = A -> is_finite A = true ->
    get order "remainingAmount" = Ok remaining ->
    asFloat remaining = R -> is_finite R = true ->
    get order "price" = Ok price ->
    asFloat price = P -> is_finite P = true ->
    (forall o,
        parseOrder markets_by_id order market = Ok o ->
        Order.filled o = (A - R)%float /\
        Order.cost o = (P * Order.filled o)%float /\
        Order.cost o = (P * (A - R))%float)
    /\ (forall currencyPair key resolved items,
           get order "currencyPair" = Ok currencyPair ->
           ToString currencyPair = Ok key ->
           get markets_by_id key = Ok resolved ->
           resolved <> VNull ->
           (forall k v, In k ["orderStatus"; "id"; "type"] ->
                        get order k = Ok v -> exists s, ToString v = Ok s) ->
           (forall v, get order "created" = Ok v ->
                      exists n, ToNumber v = Ok n) ->
           get order "trades" = Ok (VArr items) ->
           Forall (fun item => exists t, parseTrade item resolved = Ok t)
                  items ->
           exists o, parseOrder markets_by_id order market = Ok o).
Proof.
  intros markets_by_id order market amount remaining price A R P
         HA EA FA HR ER FR HP EP FP.
  subst A R P. split.
  - intros o H.
    apply parseOrder_Ok in H
      as (cp & resolved & _ & _ & Ha & Hp & Hr & Hf & Hc & _).
    rewrite (safeFloat_reading order "amount" amount None eq_refl HA FA) in Ha.
    rewrite (safeFloat_reading order "price" price None eq_refl HP FP) in Hp.
    rewrite (safeFloat_reading order "remainingAmount" remaining None
               eq_refl HR FR) in Hr.
    rewrite Ha, Hr in Hf. rewrite Hp in Hc. simpl in Hf, Hc.
    repeat split; [exact Hf | exact Hc | rewrite Hc, Hf; reflexivity].
  - intros cp key resolved items Hcp Hkey Hres Hm Hfields Hcreated Htrades Hitems.
    assert (Ho : is_nullish order = false)
      by exact (get_Ok_not_nullish _ _ _ HA).
    assert (Hprop : forall k, In k ["orderStatus"; "id"; "type"] ->
                              plain_key k = true ->
                              exists s, ToString (prop order k) = Ok s).
    { intros k Hk Hplain. destruct (get_total order k Ho) as (v & Hv).
      rewrite (get_prop _ _ _ Hplain Hv). exact (Hfields k v Hk Hv). }
    unfold parseOrder. rewrite Hcp. cbn [bind].
    rewrite (get_at_key _ _ _ (get_Ok_not_nullish _ _ _ Hres) Hkey), Hres.
    cbn [bind].
    destruct (safeString_total order "orderStatus" None) as (status & ->);
      [apply Hprop; simpl; auto|]. cbn [bind].
    destruct (parseOrderStatus_string status) as (status' & ->). cbn [bind].
    destruct (safeString_total order "id" None) as (id & ->);
      [apply Hprop; simpl; auto|]. cbn [bind].
    destruct (safeString_total order "type" None) as (side & ->);
      [apply Hprop; simpl; auto|]. cbn [bind].
    destruct (get_total order "created" Ho) as (created & Hcr).
    rewrite Hcr. cbn [bind].
    destruct (Hcreated created Hcr) as (n & ->). cbn [bind].
    assert (Hsf : exists sf,
      (if defined resolved
       then symbol <- get resolved "symbol" ;;
            quote <- get resolved "quote" ;; Ok (symbol, quote)
       else Ok (VUndefined, VUndefined)) = Ok sf).
    { destruct (defined resolved) eqn:Hd; [|eauto].
      assert (Hn : is_nullish resolved = false)
        by (destruct resolved; try reflexivity; [discriminate | congruence]).
      destruct (get_total resolved "symbol" Hn) as (v1 & ->).
      destruct (get_total resolved "quote" Hn) as (v2 & ->).
      simpl. eauto. }
    destruct Hsf as ([symbol feeCurrency] & ->). cbn [bind].
    rewrite Htrades. cbn [bind parseOrder_trades].
    destruct (mapM_total (fun item => parseTrade item resolved) items Hitems)
      as (trades & ->).
    cbn [bind]. eauto.
Qed.

(** C10.  [parseOrder] resolves the market by looking the raw order's
    [currencyPair] up in the catalog's by-id index; the [market] argument has
    no effect on the result; the returned order's [fee.cost] is unset and its
    [fee.currency] is the resolved market's [quote], or [undefined] when the
    lookup resolves nothing. *)
Theorem parseOrder_market_lookup :
  (forall markets_by_id order market market',
      parseOrder markets_by_id order market
      = parseOrder markets_by_id order market')
  /\ (forall markets_by_id order market o,
         parseOrder markets_by_id order market = Ok o ->
         exists currencyPair key resolved,
           get order "currencyPair" = Ok currencyPair /\
           ToString currencyPair = Ok key /\
           get markets_by_id key = Ok resolved /\
           Fee.cost (Order.fee o) = VUndefined /\
           (if defined resolved
            then get resolved "quote" = Ok (Fee.currency (Order.fee o))
            else Fee.currency (Order.fee o) = VUndefined))
  /\ (forall market, exists o,
         parseOrder sample_catalog sample_order market = Ok o /\
         Order.fee o = {| Fee.cost := VUndefined; Fee.currency := VStr "ETH" |}).
Proof.
  split; [|split].
  - reflexivity.
  - intros markets_by_id order market o H.
    apply parseOrder_Ok in H
      as (cp & resolved & Hcp & Hres & _ & _ & _ & _ & _ & Hfee & Hcur & _).
    apply get_at_Ok in Hres as (key & Hkey & Hres).
    exists cp, key, resolved. repeat split; auto.
    destruct (defined resolved); exact (proj1 Hcur).
  - intros market. eexists. split; reflexivity.
Qed.

(** ** Order status *)

(** The documented examples of the status table, and pass-through for a
    string that is neither in the table nor a name inherited from
    [Object.prototype]. *)
Lemma parseOrderStatus_table :
  parseOrderStatus (VStr "open") = Ok (VStr "open") /\
  parseOrderStatus (VStr "filled") = Ok (VStr "closed") /\
  parseOrderStatus (VStr "canceled") = Ok (VStr "canceled") /\
  parseOrderStatus (VStr "expired") = Ok (VStr "canceled") /\
  parseOrderStatus (VStr "weird_unknown_status")
  = Ok (VStr "weird_unknown_status").
Proof.
  repeat split; reflexivity.
Qed.

Lemma parseOrderStatus_pass_through (s : string) :
  assoc s statuses = None -> inherited_name s = false ->
  parseOrderStatus (VStr s) = Ok (VStr s).
Proof.
  intros Ha Hi. unfold parseOrderStatus, has_property. cbn [ToString bind].
  rewrite Ha, Hi. reflexivity.
Qed.

(** C4.  [parseOrderStatus] does not return every string outside its table
    unchanged: for "toString", which the table inherits from
    [Object.prototype], the [in] test succeeds and the inherited property is
    returned instead of the string. *)
Theorem parseOrderStatus_inherited_key :
  parseOrderStatus (VStr "toString") = Ok (VProto "toString") /\
  parseOrderStatus (VStr "toString") <> Ok (VStr "toString").
Proof.
  split; [reflexivity | discriminate].
Qed.

(** ** Error classification *)

(** A body that is not a string, is shorter than two characters, or does not
    start with a brace or a bracket is not examined. *)
Lemma handleErrors_not_json (httpCode reason url method headers body response : value) :
  (forall text, body = VStr text ->
                (List.length (units text) <? 2)%nat = true \/
                looks_like_json text = false) ->
  handleErrors httpCode reason url method headers body response = Ok tt.
Proof.
  intros H. destruct body as [| |b|m|text|xs|props|name]; try reflexivity.
  cbn [handleErrors]. destruct (H text eq_refl) as [-> | ->]; [reflexivity|].
  destruct (List.length (units text) <? 2)%nat; reflexivity.
Qed.

(** A code of the table raises its class with the response's reason. *)
Lemma handleErrors_listed (httpCode reason url method headers response : value)
  (text code : string) (cls : ErrorClass) (message : value) :
  (String.length text <? 2)%nat = false -> looks_like_json text = true ->
  safeString response "errorCode" None = Ok (Some code) ->
  assoc code exceptions = Some cls ->
  get response "reason" = Ok message ->
  handleErrors httpCode reason url method headers (VStr text) response
  = Throw (Raised cls message).
Proof.
  intros Hl Hj He Ha Hm. unfold handleErrors, has_property, throw_new.
  rewrite (units_length_json _ Hj), Hl, Hj, He. cbn [bind string_of].
  rewrite Ha, Hm. reflexivity.
Qed.

(** With no match in the table, [status == "error"] raises the generic
    error, and anything else raises nothing. *)
Lemma handleErrors_unlisted (httpCode reason url method headers response : value)
  (text : string) (error : option string) :
  (String.length text <? 2)%nat = false -> looks_like_json text = true ->
  safeString response "errorCode" None = Ok error ->
  has_property (string_of error) exceptions = false ->
  (safeString response "status" None = Ok (Some "error") ->
   forall message,
     get response "reason" = Ok message ->
     handleErrors httpCode reason url method headers (VStr text) response
     = Throw (Raised ExchangeError message)) /\
  (forall status,
      safeString response "status" None = Ok status ->
      status <> Some "error" ->
      handleErrors httpCode reason url method headers (VStr text) response
      = Ok tt).
Proof.
  intros Hl Hj He Hp. unfold handleErrors.
  rewrite (units_length_json _ Hj), Hl, Hj, He. cbn [bind]. rewrite Hp. split.
  - intros -> message ->. reflexivity.
  - intros status -> Hs. cbn [bind]. destruct status as [st|]; [|reflexivity].
    cbn [of_option is_string].
    destruct (String.eqb_spec st "error") as [->|_]; [congruence | reflexivity].
Qed.

(** The documented examples: code 110 raises [InvalidNonce] with the reason,
    a bare error status raises [ExchangeError], an ok status raises nothing. *)
Lemma handleErrors_examples (httpCode reason url method headers : value) (text : string) :
  (String.length text <? 2)%nat = false -> looks_like_json text = true ->
  handleErrors httpCode reason url method headers (VStr text)
    (VObj [ ("errorCode", VStr "110"); ("reason", VStr "bad nonce") ])
  = Throw (Raised InvalidNonce (VStr "bad nonce")) /\
  handleErrors httpCode reason url method headers (VStr text)
    (VObj [ ("status", VStr "error"); ("reason", VStr "x") ])
  = Throw (Raised ExchangeError (VStr "x")) /\
  handleErrors httpCode reason url method headers (VStr text)
    (VObj [ ("status", VStr "ok") ])
  = Ok tt.
Proof.
  intros Hl Hj. unfold handleErrors.
  rewrite (units_length_json _ Hj), Hl, Hj.
  repeat split; reflexivity.
Qed.

(** C2.  The classifier does not raise exactly as the table of codes says.
    Code 131 (invalid order id), which the comment above [handleErrors] lists
    among the exchange's error codes, is missing from the table: a response
    carrying it and no error status raises nothing, whatever the body.  And a
    code that names a property inherited from [Object.prototype] passes the
    [in] test: on a response that is no error the call throws a
    [TypeError]. *)
Theorem handleErrors_departures :
  (forall httpCode reason url method headers body,
      handleErrors httpCode reason url method headers body
        invalid_order_id_response
      = Ok tt)
  /\ (forall httpCode reason url method headers,
         handleErrors httpCode reason url method headers (VStr "{}")
           (VObj [ ("errorCode", VStr "toString") ])
         = Throw TypeError).
Proof.
  split.
  - intros httpCode reason url method headers body.
    destruct body as [| |b|m|text|xs|props|name]; try reflexivity.
    unfold handleErrors.
    destruct (List.length (units text) <? 2)%nat; [reflexivity|].
    destruct (looks_like_json text); reflexivity.
  - reflexivity.
Qed.

(** ** Signing *)

Lemma truthy_Some (x : option string) :
  truthy x = true -> exists s, x = Some s.
Proof.
  destruct x; simpl; intros H; [eauto | discriminate].
Qed.

(** C5.  For a private request [sign] checks the credentials first and fails
    with [CredentialsRequired] when the key or the secret is absent;
    otherwise, with nonce n, the headers are [key = apiKey], [signature =
    uppercase (hmac (string n ++ apiKey, secret))], [nonce = string n] and
    the urlencoded content type, and the body is the urlencoded query.  A
    public request keeps the headers and the body it was given. *)
Theorem sign_private :
  forall this path api method params headers body,
    (api <> "public" ->
     (truthy (apiKey this) = false \/ truthy (secret this) = false ->
      exists name,
        sign this path api method params headers body
        = Throw (Raised CredentialsRequired name)) /\
     (truthy (apiKey this) = true -> truthy (secret this) = true ->
      exists key sec,
        apiKey this = Some key /\ secret this = Some sec /\
        sign this path api method params headers body
        = Ok {| Request.url := api_url ++ implodeParams path params;
                Request.method := method;
                Request.body :=
                  VStr (urlencode (omit params (extractParams path)));
                Request.headers :=
                  VObj [ ("key", VStr key);
                         ("signature",
                          VStr (toUpperCase
                                  (hmac (Z_to_string (nonce this) ++ key) sec)));
                         ("nonce", VStr (Z_to_string (nonce this)));
                         ("Content-Type",
                          VStr "application/x-www-form-urlencoded") ] |}))
    /\ (exists request,
           sign this path "public" method params headers body = Ok request /\
           Request.headers request = headers /\
           Request.body request = body).
Proof.
  intros this path api method params headers body. split.
  - intros Hapi. apply String.eqb_neq in Hapi.
    unfold sign, checkRequiredCredentials. rewrite Hapi. split.
    + intros [Hk|Hs].
      * rewrite Hk. simpl. eauto.
      * rewrite Hs. destruct (truthy (apiKey this)); simpl; eauto.
    + intros Hk Hs. rewrite Hk, Hs.
      apply truthy_Some in Hk as (key & Hk).
      apply truthy_Some in Hs as (sec & Hs).
      exists key, sec. rewrite Hk, Hs. repeat split; reflexivity.
  - unfold sign. simpl. eexists. repeat split; reflexivity.
Qed.

(** ** Timestamps: the order of binary64 numbers *)

Ltac compare_cases :=
  repeat match goal with
  | |- context [Pos.compare_cont Eq ?a ?b] =>
      change (Pos.compare_cont Eq a b) with (Pos.compare a b)
  | |- context [Z.compare ?a ?b] => destruct (Z.compare_spec a b)
  | |- context [Pos.compare ?a ?b] => destruct (Pos.compare_spec a b)
  end.

Lemma SFltb_asym (x y : spec_float) : SFltb x y = true -> SFltb y x = false.
Proof.
  unfold SFltb, SFcompare.
  destruct x as [[]|[]| |[] m e], y as [[]|[]| |[] m' e'];
    try reflexivity; try discriminate;
    compare_cases; simpl; intros; try reflexivity; try discriminate; try lia.
Qed.

Lemma SFltb_false_trans (x y z : spec_float) :
  x <> S754_nan -> y <> S754_nan -> z <> S754_nan ->
  SFltb y x = false -> SFltb z y = false -> SFltb z x = false.
Proof.
  unfold SFltb, SFcompare. intros Hx Hy Hz.
  destruct x as [[]|[]| |[] m e], y as [[]|[]| |[] m' e'],
           z as [[]|[]| |[] m'' e''];
    try congruence; try reflexivity; try discriminate;
    compare_cases; simpl; intros; try reflexivity; try discriminate; try lia.
Qed.

Lemma not_nan_spec (x : float) : is_nan x = false -> Prim2SF x <> S754_nan.
Proof.
  unfold is_nan. rewrite eqb_spec. intros H E. rewrite E in H. discriminate.
Qed.

Lemma ltb_asym (x y : float) : (x <? y)%float = true -> (y <? x)%float = false.
Proof.
  rewrite !ltb_spec. apply SFltb_asym.
Qed.

Lemma ltb_false_trans (x y z : float) :
  is_nan x = false -> is_nan y = false -> is_nan z = false ->
  (y <? x)%float = false -> (z <? y)%float = false -> (z <? x)%float = false.
Proof.
  rewrite !ltb_spec. intros Hx Hy Hz.
  apply SFltb_false_trans; apply not_nan_spec; assumption.
Qed.

(** ** Sorting and filtering trades *)

Lemma insert_Forall (P : Trade.t -> Prop) (x : Trade.t) (l : list Trade.t) :
  P x -> Forall P l -> Forall P (insert_by_timestamp x l).
Proof.
  intros Hx Hl. induction Hl as [|y l Hy Hl IH]; simpl.
  - constructor; auto.
  - destruct (Trade.timestamp y <? Trade.timestamp x)%float; auto.
Qed.

Lemma sortBy_Forall (P : Trade.t -> Prop) (l : list Trade.t) :
  Forall P l -> Forall P (sortBy l).
Proof.
  induction 1; simpl; [constructor | apply insert_Forall; assumption].
Qed.

Lemma insert_sorted (x : Trade.t) (l : list Trade.t) :
  numeric_timestamp x -> Forall numeric_timestamp l ->
  StronglySorted timestamp_le l ->
  StronglySorted timestamp_le (insert_by_timestamp x l).
Proof.
  intros Hx Hn Hs. induction Hs as [|y l Hs IH Hy]; simpl.
  - repeat constructor.
  - inversion Hn as [|? ? Hny Hnl]; subst.
    destruct (Trade.timestamp y <? Trade.timestamp x)%float eqn:E.
    + constructor; [apply IH; assumption|].
      apply insert_Forall; [|assumption].
      apply ltb_asym. assumption.
    + constructor; [constructor; assumption|].
      constructor; [exact E|].
      rewrite Forall_forall in Hy, Hnl |- *. intros z Hz.
      unfold timestamp_le in *.
      apply (ltb_false_trans _ (Trade.timestamp y)); auto.
      apply Hnl; assumption.
Qed.

Lemma sortBy_sorted (l : list Trade.t) :
  Forall numeric_timestamp l -> StronglySorted timestamp_le (sortBy l).
Proof.
  induction 1 as [|x l Hx Hl IH]; simpl; [constructor|].
  apply insert_sorted; auto. apply sortBy_Forall; assumption.
Qed.

(** Sorting a list that is in order leaves it as it is. *)
Lemma sortBy_fixed (l : list Trade.t) :
  StronglySorted timestamp_le l -> sortBy l = l.
Proof.
  induction 1 as [|x l Hs IH Hx]; simpl; [reflexivity|].
  rewrite IH. destruct Hx as [|y l Hy _]; simpl; [reflexivity|].
  unfold timestamp_le in Hy. rewrite Hy. reflexivity.
Qed.

Lemma sorted_filter (f : Trade.t -> bool) (l : list Trade.t) :
  StronglySorted timestamp_le l -> StronglySorted timestamp_le (filter f l).
Proof.
  induction 1 as [|x l Hs IH Hx]; simpl; [constructor|].
  destruct (f x); [|assumption].
  constructor; [assumption|].
  rewrite Forall_forall in Hx |- *. intros y Hy.
  apply filter_In in Hy as [Hy _]. auto.
Qed.

Lemma Forall_firstn {A : Type} (P : A -> Prop) (n : nat) (l : list A) :
  Forall P l -> Forall P (firstn n l).
Proof.
  intros H. revert n. induction H; intros [|n]; simpl; constructor; auto.
Qed.

Lemma sorted_firstn (n : nat) (l : list Trade.t) :
  StronglySorted timestamp_le l -> StronglySorted timestamp_le (firstn n l).
Proof.
  intros Hs. revert n. induction Hs as [|x l Hs IH Hx]; intros [|n]; simpl;
    try constructor; auto.
  apply Forall_firstn. assumption.
Qed.

Lemma filter_fixed {A : Type} (f : A -> bool) (l : list A) :
  Forall (fun a => f a = true) l -> filter f l = l.
Proof.
  induction 1 as [|a l Ha _ IH]; simpl; [reflexivity|].
  rewrite Ha, IH. reflexivity.
Qed.

Lemma firstn_twice {A : Type} (n : nat) (l : list A) :
  firstn n (firstn n l) = firstn n l.
Proof.
  revert l. induction n as [|n IH]; intros [|a l]; simpl; try reflexivity.
  rewrite IH. reflexivity.
Qed.

(** The sort-and-filter stage has its own output as a fixed point. *)
Lemma stage_fixed (l : list Trade.t) (symbol : value) (since : option float)
  (limit : option nat) :
  Forall numeric_timestamp l ->
  let out := filterBySymbolSinceLimit (sortBy l) symbol since limit in
  sortBy out = out /\ filterBySymbolSinceLimit out symbol since limit = out.
Proof.
  intros Hn out. split.
  - apply sortBy_fixed. unfold out, filterBySymbolSinceLimit.
    pose proof (sorted_filter (keep symbol since) _ (sortBy_sorted l Hn)) as Hs.
    destruct limit; [apply sorted_firstn|]; assumption.
  - unfold out, filterBySymbolSinceLimit.
    assert (Hk : Forall (fun t => keep symbol since t = true)
                        (filter (keep symbol since) (sortBy l))).
    { rewrite Forall_forall. intros t Ht. apply filter_In in Ht. exact (proj2 Ht). }
    destruct limit as [n|].
    + rewrite (filter_fixed _ _ (Forall_firstn _ n _ Hk)).
      apply firstn_twice.
    + exact (filter_fixed _ _ Hk).
Qed.

(** ** Normalizing a trade list *)

Lemma parseTrade_timestamp (trade market : value) (t : Trade.t) :
  parseTrade trade market = Ok t -> Trade.timestamp t = raw_timestamp trade.
Proof.
  intros H.
  apply parseTrade_Ok in H
    as (dt & p & a & c & Hdt & _ & _ & _ & _ & (seconds & Hs & Ht) & _).
  unfold raw_timestamp. rewrite Hdt. cbn [bind]. rewrite Hs. exact Ht.
Qed.

(** An array has no [trades] property: [parseTrades] cannot take a trade
    list, its own output included, in place of the raw payload. *)
Lemma parseTrades_array (parse : value -> value -> result Trade.t)
  (xs : list value) (market : value) (since : option float) (limit : option nat) :
  parseTrades_with parse (VArr xs) market since limit = Throw TypeError.
Proof.
  reflexivity.
Qed.

(** The stage leaves a sequence that is sorted and filtered as it is. *)
Lemma stage_idle (l : list Trade.t) (symbol : value) (since : option float)
  (limit : option nat) :
  StronglySorted timestamp_le l ->
  Forall (fun t => keep symbol since t = true) l ->
  (forall n, limit = Some n -> List.length l <= n) ->
  filterBySymbolSinceLimit (sortBy l) symbol since limit = l.
Proof.
  intros Hs Hk Hn. unfold filterBySymbolSinceLimit.
  rewrite (sortBy_fixed l Hs), (filter_fixed _ _ Hk).
  destruct limit as [n|]; [|reflexivity].
  apply firstn_all2. apply Hn. reflexivity.
Qed.

(** C8, as the code has it.  On an empty raw trade list [parseTrades] returns
    the empty sequence whatever the per-trade parser would do.  The
    sort-and-filter stage changes nothing in a sequence of parsed trades that
    is already sorted and filtered.  And when every raw trade has a numeric
    timestamp, the sequence [parseTrades] returns is such a sequence: sorting
    it by timestamp and filtering it by the same symbol, [since] and [limit]
    give it back. *)
Theorem parseTrades_stage_fixed :
  (forall parse trades market since limit,
      get trades "trades" = Ok (VArr []) ->
      parseTrades_with parse trades market since limit = Ok [])
  /\ (forall l symbol since limit,
         StronglySorted timestamp_le l ->
         Forall (fun t => keep symbol since t = true) l ->
         (forall n, limit = Some n -> List.length l <= n) ->
         filterBySymbolSinceLimit (sortBy l) symbol since limit = l)
  /\ (forall trades market since limit out,
         parseTrades trades market since limit = Ok out ->
         (forall raw entries,
             get trades "trades" = Ok raw ->
             Object_values raw = Ok entries ->
             Forall (fun trade => is_nan (raw_timestamp trade) = false) entries) ->
         sortBy out = out /\
         (forall symbol,
             (if defined market then get market "symbol" = Ok symbol
              else symbol = VUndefined) ->
             filterBySymbolSinceLimit out symbol since limit = out)).
Proof.
  split; [|split].
  - intros parse trades market since limit H.
    unfold parseTrades_with. rewrite H. reflexivity.
  - exact stage_idle.
  - intros trades market since limit out H Hnum.
    unfold parseTrades, parseTrades_with in H.
    bind_inv H as raw Hraw. bind_inv H as len Hlen.
    destruct (strict_equal len (VNum 0)).
    + injection H as <-. split; [reflexivity|].
      intros symbol _. unfold filterBySymbolSinceLimit. simpl.
      destruct limit as [n|]; [destruct n|]; reflexivity.
    + bind_inv H as entries Hentries. bind_inv H as parsed Hparsed.
      bind_inv H as symbol Hsymbol. injection H as <-.
      assert (Hn : Forall numeric_timestamp parsed).
      { specialize (Hnum raw entries Hraw Hentries).
        apply mapM_Forall2 in Hparsed. clear - Hnum Hparsed.
        induction Hparsed as [|e t es ts He _ IH]; constructor.
        - inversion Hnum; subst. unfold numeric_timestamp.
          rewrite (parseTrade_timestamp _ _ _ He). assumption.
        - inversion Hnum; subst. auto. }
      destruct (stage_fixed parsed symbol since limit Hn) as [Hs Hf].
      split; [exact Hs|].
      intros symbol' Hsym. replace symbol' with symbol; [exact Hf|].
      destruct (defined market); congruence.
Qed.

(** * Further properties of the connector *)

(** ** One failing entry fails the whole list *)

Lemma mapM_Throw {A B : Type} (f : A -> result B) (l : list A) (a : A) :
  In a l ->
  (forall b, f a <> Ok b) ->
  (forall x e, f x = Throw e -> e = TypeError) ->
  mapM f l = Throw TypeError.
Proof.
  intros Hin Hbad Honly. induction l as [|x l IH]; [contradiction|].
  simpl. destruct (f x) as [b|e] eqn:Hx.
  - destruct Hin as [->|Hin]; [exfalso; exact (Hbad b Hx)|].
    cbn [bind]. rewrite (IH Hin). reflexivity.
  - rewrite (Honly x e Hx). reflexivity.
Qed.

Lemma mapM_only {A B : Type} (f : A -> result B) (l : list A) (e : exception) :
  (forall x e', f x = Throw e' -> e' = TypeError) ->
  mapM f l = Throw e -> e = TypeError.
Proof.
  intros Honly. induction l as [|x l IH]; simpl; [discriminate|].
  destruct (f x) as [b|e'] eqn:Hx; cbn [bind].
  - destruct (mapM f l) as [bs|e'']; cbn [bind]; [discriminate|].
    intros H. apply IH. injection H as <-. reflexivity.
  - intros H. injection H as <-. exact (Honly x e' Hx).
Qed.

(** ** More on the market catalog *)

Lemma append_empty (s : string) : s ++ "" = s.
Proof.
  induction s as [|c s IH]; simpl; [reflexivity | rewrite IH; reflexivity].
Qed.

(** The first piece of a split has no separator, and the string is that
    piece alone or the piece, the separator and the string the other pieces
    come from. *)
Lemma split_head (sep : ascii) (s p : string) (ps : list string) :
  split sep s = p :: ps ->
  occurs sep p = false /\
  ((ps = [] /\ s = p) \/
   exists s', s = p ++ String sep s' /\ split sep s' = ps).
Proof.
  revert p ps. induction s as [|c s IH]; simpl; intros p ps H.
  - injection H as <- <-. split; [reflexivity | left; split; reflexivity].
  - destruct (Ascii.eqb_spec c sep) as [->|Hc].
    + injection H as <- <-. split; [reflexivity|].
      right. exists s. split; reflexivity.
    + destruct (split sep s) as [|q qs] eqn:E.
      * exfalso. destruct s as [|a s]; simpl in E; [discriminate|].
        destruct (Ascii.eqb a sep); [discriminate|].
        destruct (split sep s); discriminate.
      * injection H as <- <-.
        destruct (IH q qs eq_refl) as [Hq Hrest]. split.
        -- simpl. apply orb_false_iff. split; [|exact Hq].
           apply Ascii.eqb_neq. exact Hc.
        -- destruct Hrest as [[-> ->]|(s' & -> & Hs')].
           ++ left. split; reflexivity.
           ++ right. exists s'. split; [reflexivity | exact Hs'].
Qed.

Lemma fetchMarkets_entry_Throw (record : value) (e : exception) :
  fetchMarkets_entry record = Throw e -> e = TypeError.
Proof.
  unfold fetchMarkets_entry. intros H.
  repeat match goal with
  | H : bind _ _ = Throw _ |- _ =>
      apply bind_Throw in H; destruct H as [H|(? & _ & H)]
  | H : get _ _ = Throw _ |- _ => exact (get_Throw _ _ _ H)
  | H : as_string _ = Throw _ |- _ => exact (as_string_Throw _ _ H)
  | H : ToNumber _ = Throw _ |- _ => exact (ToNumber_Throw _ _ H)
  | H : Ok _ = Throw _ |- _ => discriminate H
  end.
Qed.

(** X1.  [fetchMarkets] returns one market per record of the response, in the
    response's order; each market carries its record as [info] and the
    record's title as [symbol], and is active exactly when the record's
    [trading] field is the string "Enabled". *)
Theorem fetchMarkets_one_per_record :
  forall markets ms,
    fetchMarkets markets = Ok ms ->
    exists records,
      Object_values markets = Ok records /\
      List.length ms = List.length records /\
      Forall2 (fun record m =>
                 Market.info m = record /\
                 get record "title" = Ok (VStr (Market.symbol m)) /\
                 (Market.active m = true <->
                  get record "trading" = Ok (VStr "Enabled")))
              records ms.
Proof.
  intros markets ms H. unfold fetchMarkets in H.
  bind_inv H as records Hv. exists records. split; [exact Hv|].
  apply mapM_Forall2 in H. split.
  - symmetry. eapply Forall2_length. exact H.
  - eapply Forall2_impl; [|exact H]. clear.
    intros record m H.
    apply fetchMarkets_entry_Ok in H
      as (title & quote & pd & ad & ma & tr & Ht & _ & _ & _ & _ & Htr &
          Hsym & _ & _ & _ & _ & _ & _ & Hinfo & Hact & _).
    rewrite Hsym, Hact, Htr. repeat split; auto.
    + intros Ha. destruct tr; simpl in Ha; try discriminate.
      apply String.eqb_eq in Ha. subst. reflexivity.
    + intros Ha. injection Ha as ->. reflexivity.
Qed.

(** X2.  A catalog refresh is all or nothing: when some record has a title
    that is not a string with a slash in it, or a [minAmount] that is not a
    string, [fetchMarkets] throws a [TypeError] and returns no market at
    all. *)
Theorem fetchMarkets_all_or_nothing :
  forall markets records record,
    Object_values markets = Ok records ->
    In record records ->
    (forall title, get record "title" = Ok (VStr title) ->
                   occurs "/" title = false) \/
    (forall text, get record "minAmount" <> Ok (VStr text)) ->
    fetchMarkets markets = Throw TypeError.
Proof.
  intros markets records record Hv Hin Hbad. unfold fetchMarkets.
  rewrite Hv. cbn [bind].
  apply (mapM_Throw _ _ record Hin); [|exact fetchMarkets_entry_Throw].
  intros m Hm.
  apply fetchMarkets_entry_Ok in Hm
    as (title & quote & pd & ad & ma & tr & Ht & Hq & _ & _ & Hma & _).
  destruct Hbad as [Hbad|Hbad]; [|exact (Hbad ma Hma)].
  rewrite (split_without _ _ (Hbad title Ht)) in Hq. discriminate.
Qed.

(** X3.  In every market [fetchMarkets] builds, [base] and [quote] contain no
    slash, and [symbol] is [base], a slash and [quote], followed by nothing
    or by a further slash and more text (a title with more than one
    slash). *)
Theorem fetchMarkets_symbol_parts :
  forall markets ms,
    fetchMarkets markets = Ok ms ->
    Forall (fun m =>
              occurs "/" (Market.base m) = false /\
              occurs "/" (Market.quote m) = false /\
              exists rest,
                Market.symbol m
                = Market.base m ++ "/" ++ Market.quote m ++ rest /\
                (rest = "" \/ exists more, rest = String "/" more))
           ms.
Proof.
  intros markets ms H. unfold fetchMarkets in H.
  bind_inv H as records Hv. apply mapM_Forall2 in H. clear Hv.
  induction H as [|record m records ms H _ IH]; constructor; auto.
  apply fetchMarkets_entry_Ok in H
    as (title & quote & pd & ad & ma & tr & _ & Hq & _ & _ & _ & _ &
        Hsym & Hbase & Hquote & _).
  rewrite Hsym, Hbase, Hquote. clear - Hq.
  destruct (split "/" title) as [|b [|q ps]] eqn:E; try discriminate.
  injection Hq as ->. simpl.
  apply split_head in E as [Hb [[Hnil _]|(s' & -> & Hs')]]; [discriminate|].
  apply split_head in Hs' as [Hq [[-> ->]|(s'' & -> & _)]].
  - repeat split; auto. exists "". split; [|left; reflexivity].
    rewrite append_empty. reflexivity.
  - repeat split; auto. exists (String "/" s''). split; [reflexivity|].
    right. eexists. reflexivity.
Qed.


(** ** More on single trades *)

Lemma abs_not_negative (x : float) : (abs x <? 0)%float = false.
Proof.
  rewrite ltb_spec, abs_spec. change (Prim2SF 0) with (S754_zero false).
  destruct (Prim2SF x) as [s|s| |s m e]; reflexivity.
Qed.

(** X4.  [parseTrade] throws only a [TypeError].  It throws one when the
    trade is [null] or [undefined], when the market is [null], and when the
    trade's [datetime] has no string (an object with a [toString] that is no
    function); it returns a trade when the trade is there, its [type],
    [tid], [id] and [datetime] have a string, and the market is absent or
    has identifiers that have a string. *)
Theorem parseTrade_throws :
  forall trade market,
    (forall e, parseTrade trade market = Throw e -> e = TypeError) /\
    (is_nullish trade = true \/ market = VNull ->
     parseTrade trade market = Throw TypeError) /\
    (forall dt,
        get trade "datetime" = Ok dt -> (forall s, ToString dt <> Ok s) ->
        parseTrade trade market = Throw TypeError) /\
    (is_nullish trade = false -> market <> VNull ->
     (forall k v, In k ["type"; "tid"; "id"; "datetime"] ->
                  get trade k = Ok v -> exists s, ToString v = Ok s) ->
     (forall k v, In k ["symbolId"; "baseId"; "quoteId"] ->
                  get market k = Ok v -> exists s, ToString v = Ok s) ->
     exists t, parseTrade trade market = Ok t).
Proof.
  intros trade market.
  split; [|split; [|split]].
  - intros e. apply parseTrade_Throw.
  - apply parseTrade_nullish.
  - intros dt Hdt Hnone.
    destruct (parseTrade trade market) as [t|e] eqn:E.
    + exfalso.
      apply parseTrade_Ok in E
        as (dt' & p & a & c & Hdt' & _ & _ & _ & _ & (seconds & Hs & _) & _).
      rewrite Hdt in Hdt'. injection Hdt' as <-.
      unfold parseInt in Hs. bind_inv Hs as s Hs'.
      exact (Hnone s Hs').
    + rewrite (parseTrade_Throw _ _ _ E). reflexivity.
  - apply parseTrade_total.
Qed.

(** X5.  The cost of a normalized trade is never negative: when [parseTrade]
    reports a cost, that number is not below zero. *)
Theorem parseTrade_cost_not_negative :
  forall trade market t c,
    parseTrade trade market = Ok t ->
    Trade.cost t = Some c ->
    (c <? 0)%float = false.
Proof.
  intros trade market t c H Hc.
  apply parseTrade_Ok in H
    as (dt & price & amount & cost & _ & _ & _ & _ & Hcost & _).
  rewrite Hcost in Hc.
  destruct (match cost with
            | Some _ => cost
            | None => match price with
                      | Some p => match amount with
                                  | Some a => Some (p * a)%float
                                  | None => cost
                                  end
                      | None => cost
                      end
            end) as [x|]; [|discriminate].
  injection Hc as <-. apply abs_not_negative.
Qed.

(** X6.  With no market given, a trade object whose [price] and [amount] are
    finite numbers p and a is normalized with that price and amount and no
    symbol; its cost is [|p * a|] when the payload has no [cost] field, and
    the absolute value of the payload's own cost, not recomputed, when it
    has one. *)
Theorem parseTrade_cost :
  forall trade p a t,
    isObject trade = true ->
    get trade "price" = Ok (VNum p) -> is_finite p = true ->
    get trade "amount" = Ok (VNum a) -> is_finite a = true ->
    parseTrade trade VUndefined = Ok t ->
    Trade.price t = Some p /\
    Trade.amount t = Some a /\
    Trade.symbol t = VUndefined /\
    (get trade "cost" = Ok VUndefined ->
     Trade.cost t = Some (abs (p * a))) /\
    (forall c, get trade "cost" = Ok (VNum c) -> is_finite c = true ->
               Trade.cost t = Some (abs c)).
Proof.
  intros trade p a t Ho Hp Fp Ha Fa H.
  apply parseTrade_Ok in H
    as (dt & price & amount & cost & _ & Hm & Hprice & Hamount & Hcost & _).
  cbn [defined] in Hm. destruct Hm as (Hsym & -> & -> & ->).
  rewrite (safeFloat_field _ _ (VNum p) _ Ho Hp Fp) in Hprice, Hcost.
  rewrite (safeFloat_field _ _ (VNum a) _ Ho Ha Fa) in Hamount, Hcost.
  cbn [asFloat] in Hprice, Hamount, Hcost.
  repeat split; auto.
  - intros Hc. rewrite (safeFloat_undefined _ _ _ Hc) in Hcost. exact Hcost.
  - intros c Hc Fc. rewrite (safeFloat_field _ _ (VNum c) _ Ho Hc Fc) in Hcost.
    exact Hcost.
Qed.

(** X7.  With a market given, the fields of the payload named after the
    market take precedence: the price is read under the market's [symbolId]
    and the amount under its [baseId] when those fields are finite numbers,
    and the generic [price] and [amount] fields are the fallback when they
    are absent; the trade's symbol is the market's. *)
Theorem parseTrade_market_fields :
  forall trade market ks kb t,
    isObject trade = true ->
    get market "symbolId" = Ok (VStr ks) ->
    get market "baseId" = Ok (VStr kb) ->
    parseTrade trade market = Ok t ->
    get market "symbol" = Ok (Trade.symbol t) /\
    (forall q, get trade ks = Ok (VNum q) -> is_finite q = true ->
               Trade.price t = Some q) /\
    (get trade ks = Ok VUndefined ->
     Trade.price t = safeFloat trade "price" None) /\
    (forall q, get trade kb = Ok (VNum q) -> is_finite q = true ->
               Trade.amount t = Some q) /\
    (get trade kb = Ok VUndefined ->
     Trade.amount t = safeFloat trade "amount" None).
Proof.
  intros trade market ks kb t Ho Hks Hkb H.
  apply parseTrade_Ok in H
    as (dt & price & amount & cost & _ & Hm & Hprice & Hamount & _).
  assert (Hd : defined market = true)
    by (destruct market; try reflexivity; discriminate).
  rewrite Hd in Hm.
  destruct Hm as (sid & bid & qid & Hs & Hb & _ & Hsym & Hp & Ha & _).
  rewrite Hks in Hs. injection Hs as <-.
  rewrite Hkb in Hb. injection Hb as <-.
  unfold safeFloat_at in Hp, Ha. rewrite Ho in Hp, Ha.
  cbn [ToString bind] in Hp, Ha.
  injection Hp as <-. injection Ha as <-.
  repeat split; auto.
  - intros q Hq Fq. rewrite Hprice.
    exact (safeFloat_field _ _ (VNum q) _ Ho Hq Fq).
  - intros Hq. rewrite Hprice. apply safeFloat_undefined. assumption.
  - intros q Hq Fq. rewrite Hamount.
    exact (safeFloat_field _ _ (VNum q) _ Ho Hq Fq).
  - intros Hq. rewrite Hamount. apply safeFloat_undefined. assumption.
Qed.


(** ** More on trade lists *)

Lemma insert_Permutation (x : Trade.t) (l : list Trade.t) :
  Permutation (x :: l) (insert_by_timestamp x l).
Proof.
  induction l as [|y l IH]; simpl; [reflexivity|].
  destruct (Trade.timestamp y <? Trade.timestamp x)%float; [|reflexivity].
  rewrite perm_swap. apply perm_skip. exact IH.
Qed.

Lemma sortBy_Permutation (l : list Trade.t) : Permutation l (sortBy l).
Proof.
  induction l as [|x l IH]; simpl; [reflexivity|].
  rewrite <- insert_Permutation. apply perm_skip. exact IH.
Qed.

Lemma Object_values_total (o : value) :
  is_nullish o = false -> exists vs, Object_values o = Ok vs.
Proof.
  destruct o; simpl; intros H; try discriminate; eauto.
Qed.

(** What [parseTrades] reads and returns when it returns. *)
Lemma parseTrades_Ok (trades market : value) (since : option float)
  (limit : option nat) (out : list Trade.t) :
  parseTrades trades market since limit = Ok out ->
  exists raw len entries,
    get trades "trades" = Ok raw /\
    get raw "length" = Ok len /\
    Object_values raw = Ok entries /\
    ((strict_equal len (VNum 0) = true /\ out = []) \/
     (strict_equal len (VNum 0) = false /\
      exists parsed symbol,
        mapM (fun trade => parseTrade trade market) entries = Ok parsed /\
        (if defined market then get market "symbol" = Ok symbol
         else symbol = VUndefined) /\
        out = filterBySymbolSinceLimit (sortBy parsed) symbol since limit)).
Proof.
  unfold parseTrades, parseTrades_with. intros H.
  bind_inv H as raw Hraw. bind_inv H as len Hlen.
  destruct (Object_values_total raw (get_Ok_not_nullish _ _ _ Hlen))
    as (entries & Hentries).
  exists raw, len, entries. repeat split; auto.
  destruct (strict_equal len (VNum 0)).
  - left. injection H as <-. split; reflexivity.
  - right. split; [reflexivity|].
    rewrite Hentries in H. cbn [bind] in H.
    bind_inv H as parsed Hparsed. bind_inv H as symbol Hsymbol.
    injection H as <-. exists parsed, symbol. repeat split; auto.
    destruct (defined market); [exact Hsymbol | congruence].
Qed.

(** X8.  When every raw trade has a numeric timestamp, the sequence
    [parseTrades] returns is in ascending order of timestamp: no entry has a
    timestamp below that of an entry before it. *)
Theorem parseTrades_sorted :
  forall trades market since limit out,
    parseTrades trades market since limit = Ok out ->
    (forall raw entries,
        get trades "trades" = Ok raw ->
        Object_values raw = Ok entries ->
        Forall (fun trade => is_nan (raw_timestamp trade) = false) entries) ->
    StronglySorted timestamp_le out.
Proof.
  intros trades market since limit out H Hnum.
  apply parseTrades_Ok in H
    as (raw & len & entries & Hraw & _ & Hentries &
        [[_ ->]|(_ & parsed & symbol & Hparsed & _ & ->)]);
    [constructor|].
  assert (Hn : Forall numeric_timestamp parsed).
  { specialize (Hnum raw entries Hraw Hentries).
    apply mapM_Forall2 in Hparsed. clear - Hnum Hparsed.
    induction Hparsed as [|e t es ts He _ IH]; constructor.
    - inversion Hnum; subst. unfold numeric_timestamp.
      rewrite (parseTrade_timestamp _ _ _ He). assumption.
    - inversion Hnum; subst. auto. }
  unfold filterBySymbolSinceLimit.
  pose proof (sorted_filter (keep symbol since) _ (sortBy_sorted parsed Hn)) as Hs.
  destruct limit; [apply sorted_firstn|]; assumption.
Qed.

(** X9.  Every trade [parseTrades] returns is the normalization of an entry
    of the payload; there are at most [limit] of them when a limit is given;
    each has a timestamp of at least [since] when a since is given, and the
    market's symbol when a market with a symbol is given. *)
Theorem parseTrades_filtered :
  forall trades market since limit out,
    parseTrades trades market since limit = Ok out ->
    (exists raw entries,
        get trades "trades" = Ok raw /\
        Object_values raw = Ok entries /\
        Forall (fun t => exists trade,
                    In trade entries /\ parseTrade trade market = Ok t)
               out) /\
    (forall n, limit = Some n -> List.length out <= n) /\
    (forall s, since = Some s ->
               Forall (fun t => (s <=? Trade.timestamp t)%float = true) out) /\
    (forall symbol,
        get market "symbol" = Ok symbol -> is_nullish symbol = false ->
        Forall (fun t => strict_equal (Trade.symbol t) symbol = true) out).
Proof.
  intros trades market since limit out H.
  apply parseTrades_Ok in H
    as (raw & len & entries & Hraw & _ & Hentries &
        [[_ ->]|(_ & parsed & symbol & Hparsed & Hsymbol & ->)]).
  - split; [exists raw, entries; auto|].
    repeat split; intros; try constructor. simpl. lia.
  - assert (Hsub : forall t,
      In t (filterBySymbolSinceLimit (sortBy parsed) symbol since limit) ->
      In t parsed /\ keep symbol since t = true).
    { intros t Ht. unfold filterBySymbolSinceLimit in Ht.
      assert (Hin : In t (filter (keep symbol since) (sortBy parsed))).
      { destruct limit as [n|]; [|exact Ht].
        rewrite <- (firstn_skipn n). apply in_or_app. left. exact Ht. }
      apply filter_In in Hin as [Hin Hk]. split; [|exact Hk].
      eapply Permutation_in; [|exact Hin].
      symmetry. apply sortBy_Permutation. }
    split; [|split; [|split]].
    + exists raw, entries. repeat split; auto.
      apply Forall_forall. intros t Ht. apply Hsub in Ht as [Ht _].
      apply mapM_Forall2 in Hparsed. clear - Hparsed Ht.
      induction Hparsed as [|e t' es ts He _ IH]; [contradiction|].
      destruct Ht as [->|Ht].
      * exists e. split; [left; reflexivity | exact He].
      * destruct (IH Ht) as (e' & Hin & He'). exists e'. split; [right|]; auto.
    + intros n ->. unfold filterBySymbolSinceLimit.
      rewrite length_firstn. lia.
    + intros s ->. apply Forall_forall. intros t Ht.
      apply Hsub in Ht as [_ Hk]. unfold keep in Hk.
      apply andb_true_iff in Hk as [_ Hk]. exact Hk.
    + intros symbol' Hsym Hnn. apply Forall_forall. intros t Ht.
      apply Hsub in Ht as [_ Hk]. unfold keep in Hk.
      apply andb_true_iff in Hk as [Hk _].
      assert (Hd : defined market = true).
      { destruct market; try reflexivity; discriminate. }
      rewrite Hd in Hsymbol. rewrite Hsym in Hsymbol. injection Hsymbol as <-.
      rewrite Hnn in Hk. exact Hk.
Qed.

(** X10.  With no [since] and no [limit], and a market that is absent or has
    a string for symbol, [parseTrades] loses no trade: unless the raw list
    reports length 0 (and the result is empty), the result is a
    rearrangement of the normalized entries, one per entry of the payload. *)
Theorem parseTrades_keeps_all :
  forall trades market out,
    market = VUndefined \/ (exists s, get market "symbol" = Ok (VStr s)) ->
    parseTrades trades market None None = Ok out ->
    exists raw len entries,
      get trades "trades" = Ok raw /\
      get raw "length" = Ok len /\
      Object_values raw = Ok entries /\
      ((strict_equal len (VNum 0) = true /\ out = []) \/
       (exists parsed,
           mapM (fun trade => parseTrade trade market) entries = Ok parsed /\
           Permutation parsed out /\
           List.length out = List.length entries)).
Proof.
  intros trades market out Hm H.
  apply parseTrades_Ok in H
    as (raw & len & entries & Hraw & Hlen & Hentries &
        [[Hz ->]|(_ & parsed & symbol & Hparsed & Hsymbol & ->)]);
    exists raw, len, entries; repeat split; auto.
  right. exists parsed. split; [exact Hparsed|].
  assert (Hall : Forall (fun t => keep symbol None t = true) (sortBy parsed)).
  { apply sortBy_Forall. pose proof (mapM_Forall2 _ _ _ Hparsed) as HF.
    clear - HF Hm Hsymbol.
    induction HF as [|e t es ts He _ IH]; constructor; auto.
    unfold keep. rewrite andb_true_r.
    destruct Hm as [->|(s & Hs)].
    - cbn [defined] in Hsymbol. subst symbol. reflexivity.
    - assert (Hd : defined market = true)
        by (destruct market; try reflexivity; discriminate).
      rewrite Hd in Hsymbol. rewrite Hs in Hsymbol. injection Hsymbol as <-.
      apply parseTrade_Ok in He as (dt & p & a & c & _ & He & _).
      rewrite Hd in He. destruct He as (k1 & k2 & k3 & _ & _ & _ & Hsym & _).
      rewrite Hs in Hsym. injection Hsym as Hsym. rewrite <- Hsym.
      simpl. apply String.eqb_refl. }
  unfold filterBySymbolSinceLimit. rewrite (filter_fixed _ _ Hall).
  split; [apply sortBy_Permutation|].
  rewrite <- (Permutation_length (sortBy_Permutation parsed)).
  apply mapM_Forall2 in Hparsed. symmetry.
  eapply Forall2_length. exact Hparsed.
Qed.


(** ** More on orders *)

Lemma sub_nan_l (x : float) : (nan - x)%float = nan.
Proof.
  apply Prim2SF_inj. rewrite sub_spec. change (Prim2SF nan) with S754_nan.
  reflexivity.
Qed.

Lemma sub_nan_r (x : float) : (x - nan)%float = nan.
Proof.
  apply Prim2SF_inj. rewrite sub_spec. change (Prim2SF nan) with S754_nan.
  destruct (Prim2SF x); reflexivity.
Qed.

Lemma mul_nan_l (x : float) : (nan * x)%float = nan.
Proof.
  apply Prim2SF_inj. rewrite mul_spec. change (Prim2SF nan) with S754_nan.
  reflexivity.
Qed.

Lemma mul_nan_r (x : float) : (x * nan)%float = nan.
Proof.
  apply Prim2SF_inj. rewrite mul_spec. change (Prim2SF nan) with S754_nan.
  destruct (Prim2SF x); reflexivity.
Qed.

Lemma parseOrder_loop_items (market : value) (raw : value) :
  forall fuel i ts,
    parseOrder_loop fuel i raw market = Ok ts ->
    Forall (fun t => exists item, parseTrade item market = Ok t) ts.
Proof.
  induction fuel as [|fuel IH]; intros i ts H; cbn [parseOrder_loop] in H.
  - bind_inv H as len Hlen. bind_inv H as n Hn.
    destruct (of_nat i <? n)%float.
    + bind_inv H as item Hitem. bind_inv H as trade Htrade. discriminate.
    + injection H as <-. constructor.
  - bind_inv H as len Hlen. bind_inv H as n Hn.
    destruct (of_nat i <? n)%float.
    + bind_inv H as item Hitem. bind_inv H as trade Htrade.
      bind_inv H as rest Hrest. injection H as <-.
      constructor; [eauto | eapply IH; exact Hrest].
    + injection H as <-. constructor.
Qed.

Lemma mapM_items {A B : Type} (f : A -> result B) (l : list A) (l' : list B) :
  mapM f l = Ok l' -> Forall (fun b => exists a, f a = Ok b) l'.
Proof.
  intros H. apply mapM_Forall2 in H.
  induction H; constructor; eauto.
Qed.

Lemma parseOrder_trades_items (raw market : value) (ts : list Trade.t) :
  parseOrder_trades raw market = Ok ts ->
  Forall (fun t => exists item, parseTrade item market = Ok t) ts.
Proof.
  destruct raw as [| |b|m|s|xs|props|name]; cbn [parseOrder_trades];
    intros H; try discriminate;
    try (injection H as <-; constructor).
  - exact (mapM_items _ _ _ H).
  - exact (mapM_items _ _ _ H).
  - exact (parseOrder_loop_items _ _ _ _ _ H).
Qed.

Lemma parseOrder_loop_Throw (market raw : value) (e : exception) :
  forall fuel i,
    parseOrder_loop fuel i raw market = Throw e -> e = TypeError.
Proof.
  induction fuel as [|fuel IH]; intros i H; cbn [parseOrder_loop] in H.
  - apply bind_Throw in H as [H|(len & _ & H)]; [exact (get_Throw _ _ _ H)|].
    apply bind_Throw in H as [H|(n & _ & H)]; [exact (ToNumber_Throw _ _ H)|].
    destruct (of_nat i <? n)%float; [|discriminate].
    apply bind_Throw in H as [H|(item & _ & H)]; [exact (get_Throw _ _ _ H)|].
    apply bind_Throw in H as [H|(trade & _ & H)];
      [exact (parseTrade_Throw _ _ _ H) | congruence].
  - apply bind_Throw in H as [H|(len & _ & H)]; [exact (get_Throw _ _ _ H)|].
    apply bind_Throw in H as [H|(n & _ & H)]; [exact (ToNumber_Throw _ _ H)|].
    destruct (of_nat i <? n)%float; [|discriminate].
    apply bind_Throw in H as [H|(item & _ & H)]; [exact (get_Throw _ _ _ H)|].
    apply bind_Throw in H as [H|(trade & _ & H)];
      [exact (parseTrade_Throw _ _ _ H)|].
    apply bind_Throw in H as [H|(rest & _ & H)]; [|discriminate].
    exact (IH _ H).
Qed.

Lemma parseOrder_trades_Throw (raw market : value) (e : exception) :
  parseOrder_trades raw market = Throw e -> e = TypeError.
Proof.
  destruct raw as [| |b|m|s|xs|props|name]; cbn [parseOrder_trades];
    intros H; try discriminate; try congruence.
  - exact (mapM_only _ _ _ (fun x => parseTrade_Throw x market) H).
  - exact (mapM_only _ _ _ (fun x => parseTrade_Throw x market) H).
  - exact (parseOrder_loop_Throw _ _ _ _ _ H).
Qed.

Lemma parseOrder_Throw (markets_by_id order market : value) (e : exception) :
  parseOrder markets_by_id order market = Throw e -> e = TypeError.
Proof.
  unfold parseOrder. intros H.
  apply bind_Throw in H as [H|(cp & _ & H)]; [exact (get_Throw _ _ _ H)|].
  apply bind_Throw in H as [H|(resolved & _ & H)];
    [exact (get_at_Throw _ _ _ H)|].
  apply bind_Throw in H as [H|(status0 & _ & H)];
    [exact (safeString_Throw _ _ _ _ H)|].
  apply bind_Throw in H as [H|(status & _ & H)];
    [exact (parseOrderStatus_Throw _ _ H)|].
  apply bind_Throw in H as [H|(id & _ & H)];
    [exact (safeString_Throw _ _ _ _ H)|].
  apply bind_Throw in H as [H|(side & _ & H)];
    [exact (safeString_Throw _ _ _ _ H)|].
  apply bind_Throw in H as [H|(created0 & _ & H)]; [exact (get_Throw _ _ _ H)|].
  apply bind_Throw in H as [H|(created & _ & H)];
    [exact (ToNumber_Throw _ _ H)|].
  apply bind_Throw in H as [H|(sf & _ & H)].
  - destruct (defined resolved); [|discriminate].
    apply bind_Throw in H as [H|(s & _ & H)]; [exact (get_Throw _ _ _ H)|].
    apply bind_Throw in H as [H|(q & _ & H)]; [exact (get_Throw _ _ _ H)|].
    discriminate.
  - destruct sf as [symbol feeCurrency].
    apply bind_Throw in H as [H|(raw & _ & H)]; [exact (get_Throw _ _ _ H)|].
    apply bind_Throw in H as [H|(trades & _ & H)]; [|discriminate].
    exact (parseOrder_trades_Throw _ _ _ H).
Qed.

(** The fields of the order that [parseOrder] copies or maps from the
    payload. *)
Lemma parseOrder_fields (markets_by_id order market : value) (o : Order.t) :
  parseOrder markets_by_id order market = Ok o ->
  (exists status,
      safeString order "orderStatus" None = Ok status /\
      parseOrderStatus (of_option VStr status) = Ok (Order.status o)) /\
  safeString order "id" None = Ok (Order.id o) /\
  safeString order "type" None = Ok (Order.side o) /\
  Order.type o = "limit" /\
  Order.info o = order.
Proof.
  unfold parseOrder. intros H.
  bind_inv H as cp Hcp. bind_inv H as resolved Hres.
  bind_inv H as status0 Hstatus0. bind_inv H as status Hstatus.
  bind_inv H as id Hid. bind_inv H as side Hside.
  bind_inv H as created0 Hcr0. bind_inv H as created Hcr.
  bind_inv H as sf Hsf.
  destruct sf as [symbol feeCurrency].
  bind_inv H as raw Hraw. bind_inv H as trades Htr. injection H as <-.
  cbn [Order.status Order.id Order.side Order.type Order.info].
  repeat split; eauto.
Qed.

(** Only an object or an array gets through [parseOrder]. *)
Lemma parseOrder_Ok_object (markets_by_id order market : value) (o : Order.t) :
  parseOrder markets_by_id order market = Ok o -> isObject order = true.
Proof.
  intros H.
  apply parseOrder_Ok in H
    as (cp & resolved & _ & _ & _ & _ & _ & _ & _ & _ & _ & raw & Hraw & Ht).
  destruct order as [| |b|m|s|xs|props|name]; try reflexivity;
    try discriminate; exfalso; cbv in Hraw; injection Hraw as <-;
    discriminate.
Qed.

(** X11.  [parseOrder] normalizes the order's trades with the market it
    resolved, the entry of the catalog index under the order's pair id:
    every trade of the returned order carries the order's own symbol, and
    for a [trades] array there is exactly one trade per element, in the
    array's order, each the normalization of its element with that
    market. *)
Theorem parseOrder_trades_symbol :
  forall markets_by_id order market o,
    parseOrder markets_by_id order market = Ok o ->
    Forall (fun t => Trade.symbol t = Order.symbol o) (Order.trades o) /\
    (forall items,
        get order "trades" = Ok (VArr items) ->
        exists currencyPair key resolved,
          get order "currencyPair" = Ok currencyPair /\
          ToString currencyPair = Ok key /\
          get markets_by_id key = Ok resolved /\
          Forall2 (fun item t => parseTrade item resolved = Ok t)
                  items (Order.trades o)).
Proof.
  intros markets_by_id order market o H.
  apply parseOrder_Ok in H
    as (cp & resolved & Hcp & Hres & _ & _ & _ & _ & _ & _ & Hsym &
        raw & Hraw & Ht).
  split.
  - apply parseOrder_trades_items in Ht.
    eapply Forall_impl; [|exact Ht]. clear - Hsym.
    intros t (item & Hitem).
    apply parseTrade_Ok in Hitem as (dt & p & a & c & _ & Hm & _).
    destruct (defined resolved).
    + destruct Hm as (k1 & k2 & k3 & _ & _ & _ & Hs & _).
      destruct Hsym as [_ Hsym]. congruence.
    + destruct Hm as [Hs _]. destruct Hsym as [_ Hsym]. congruence.
  - intros items Hitems. rewrite Hitems in Hraw. injection Hraw as <-.
    apply get_at_Ok in Hres as (key & Hkey & Hres).
    exists cp, key, resolved. repeat split; auto.
    apply mapM_Forall2. exact Ht.
Qed.

(** X12.  [parseOrder] does not guard its arithmetic: when the payload has
    no [amount] or no [remainingAmount], the returned order's [filled] and
    [cost] are [NaN], not [undefined]; when it has no [price], its [cost] is
    [NaN]. *)
Theorem parseOrder_missing_numbers :
  forall markets_by_id order market o,
    parseOrder markets_by_id order market = Ok o ->
    (get order "amount" = Ok VUndefined \/
     get order "remainingAmount" = Ok VUndefined ->
     is_nan (Order.filled o) = true /\ is_nan (Order.cost o) = true) /\
    (get order "price" = Ok VUndefined -> is_nan (Order.cost o) = true).
Proof.
  intros markets_by_id order market o H.
  apply parseOrder_Ok in H
    as (cp & resolved & _ & _ & Ha & Hp & Hr & Hf & Hc & _).
  split.
  - intros Habs.
    assert (Hnan : Order.filled o = nan).
    { rewrite Hf. destruct Habs as [Habs|Habs].
      - rewrite Ha, (safeFloat_undefined _ _ _ Habs). apply sub_nan_l.
      - rewrite Hr, (safeFloat_undefined _ _ _ Habs). apply sub_nan_r. }
    rewrite Hc, Hnan, mul_nan_r. split; reflexivity.
  - intros Habs. rewrite Hc, Hp, (safeFloat_undefined _ _ _ Habs).
    cbn [to_number]. rewrite mul_nan_l. reflexivity.
Qed.

(** X13.  [parseOrder] throws nothing but a [TypeError], and it throws one
    whenever the payload is [null] or [undefined], the catalog index is not
    loaded, or the payload's [trades] is absent or [null], whatever else the
    payload holds. *)
Theorem parseOrder_throws :
  forall markets_by_id order market,
    (forall e, parseOrder markets_by_id order market = Throw e ->
               e = TypeError) /\
    (is_nullish order = true \/
     is_nullish markets_by_id = true \/
     get order "trades" = Ok VUndefined \/
     get order "trades" = Ok VNull ->
     parseOrder markets_by_id order market = Throw TypeError).
Proof.
  intros markets_by_id order market. split; [apply parseOrder_Throw|].
  intros Hbad.
  destruct (parseOrder markets_by_id order market) as [o|e] eqn:E.
  - exfalso.
    apply parseOrder_Ok in E
      as (cp & resolved & Hcp & Hres & _ & _ & _ & _ & _ & _ & _ &
          raw & Hraw & Ht).
    destruct Hbad as [Hb|[Hb|[Hb|Hb]]].
    + apply get_Ok_not_nullish in Hcp. congruence.
    + apply get_at_Ok in Hres as (key & _ & Hres).
      apply get_Ok_not_nullish in Hres. congruence.
    + rewrite Hb in Hraw. injection Hraw as <-. discriminate.
    + rewrite Hb in Hraw. injection Hraw as <-. discriminate.
  - rewrite (parseOrder_Throw _ _ _ _ E). reflexivity.
Qed.

(** X14.  A fetched order reports the status [fetchOrderStatus] reports for
    the same payload: the canonical status of the table for a raw status of
    the table, and [undefined] when the payload has no [orderStatus]; its
    type is always "limit" and its [info] is the payload. *)
Theorem fetchOrder_status :
  forall markets_by_id order o,
    fetchOrder markets_by_id order = Ok o ->
    fetchOrderStatus order = Ok (Order.status o) /\
    Order.type o = "limit" /\
    Order.info o = order /\
    (get order "orderStatus" = Ok VUndefined -> Order.status o = VUndefined) /\
    (forall raw canonical,
        get order "orderStatus" = Ok (VStr raw) ->
        assoc raw statuses = Some canonical ->
        Order.status o = VStr canonical).
Proof.
  intros markets_by_id order o H. unfold fetchOrder in H.
  pose proof (parseOrder_Ok_object _ _ _ _ H) as Ho.
  apply parseOrder_fields in H as ((status & Hs & Hp) & _ & _ & Ht & Hi).
  unfold fetchOrderStatus. rewrite Hs. cbn [bind].
  repeat split; auto.
  - intros Habs. rewrite (safeString_undefined _ _ _ Habs) in Hs.
    injection Hs as <-.
    change (parseOrderStatus (of_option VStr None)) with (Ok VUndefined) in Hp.
    congruence.
  - intros raw canonical Hraw Hc.
    rewrite (safeString_field _ _ _ _ Ho Hraw) in Hs. injection Hs as <-.
    unfold parseOrderStatus, has_property in Hp.
    cbn [of_option ToString bind] in Hp. rewrite Hc in Hp. congruence.
Qed.


(** ** More on error classification *)

(** X15.  [handleErrors] raises only on a body that is a string of at least
    two characters starting with a brace or a bracket, and only when the
    parsed response is an object or an array: whatever the body says, a
    response that was not parsed into one raises nothing. *)
Theorem handleErrors_raises_only :
  forall httpCode reason url method headers body response e,
    handleErrors httpCode reason url method headers body response = Throw e ->
    (exists text,
        body = VStr text /\
        (String.length text <? 2)%nat = false /\
        looks_like_json text = true) /\
    isObject response = true.
Proof.
  intros httpCode reason url method headers body response e H.
  destruct body as [| |b|m|text|xs|props|name]; try discriminate.
  unfold handleErrors in H.
  destruct (List.length (units text) <? 2)%nat eqn:Hl; [discriminate|].
  destruct (looks_like_json text) eqn:Hj; [|discriminate].
  rewrite (units_length_json _ Hj) in Hl.
  split; [exists text; repeat split; assumption|].
  destruct (isObject response) eqn:Ho; [reflexivity|].
  rewrite !(safeString_not_object _ _ _ Ho) in H. discriminate.
Qed.

(** ** More on signing *)

Lemma append_assoc_string (a b c : string) : (a ++ b) ++ c = a ++ b ++ c.
Proof.
  induction a as [|x a IH]; simpl; [reflexivity | rewrite IH; reflexivity].
Qed.

Lemma omit_lookup (params : list (string * value)) (keys : list string) (k : string) :
  assoc k (omit params keys)
  = if existsb (String.eqb k) keys then None else assoc k params.
Proof.
  unfold omit. induction params as [|[k' v] params IH]; simpl.
  - destruct (existsb (String.eqb k) keys); reflexivity.
  - destruct (existsb (String.eqb k') keys) eqn:Hk'; simpl.
    + rewrite IH. destruct (String.eqb_spec k k') as [->|_]; [|reflexivity].
      rewrite Hk'. reflexivity.
    + destruct (String.eqb_spec k k') as [->|_]; [|exact IH].
      rewrite Hk'. reflexivity.
Qed.




(** ** Balances *)

Lemma assoc_replace_same (k : string) (v : value) (props : list (string * value)) :
  assoc k props <> None -> assoc k (replace_value k v props) = Some v.
Proof.
  induction props as [|[k' v'] props IH]; simpl; [congruence|].
  destruct (String.eqb_spec k k') as [->|Hne]; simpl.
  - intros _. rewrite String.eqb_refl. reflexivity.
  - intros H. destruct (String.eqb_spec k k'); [contradiction | auto].
Qed.

Lemma assoc_replace_other (k k' : string) (v : value) (props : list (string * value)) :
  k' <> k -> assoc k' (replace_value k v props) = assoc k' props.
Proof.
  intros Hne. induction props as [|[k0 v0] props IH]; simpl; [reflexivity|].
  destruct (String.eqb_spec k k0) as [->|Hk]; simpl.
  - destruct (String.eqb_spec k' k0); [contradiction | reflexivity].
  - rewrite IH. reflexivity.
Qed.

Lemma assoc_insert_same (n : Z) (k : string) (v : value) (props : list (string * value)) :
  assoc k props = None -> assoc k (insert_index n k v props) = Some v.
Proof.
  induction props as [|[k' v'] props IH]; simpl.
  - intros _. rewrite String.eqb_refl. reflexivity.
  - destruct (String.eqb_spec k k') as [->|Hne]; [discriminate|]. intros H.
    destruct (array_index k') as [n'|]; [destruct (n' <? n)%Z|]; simpl;
      try (rewrite String.eqb_refl; reflexivity).
    destruct (String.eqb_spec k k'); [contradiction | auto].
Qed.

Lemma assoc_insert_other (n : Z) (k k' : string) (v : value)
  (props : list (string * value)) :
  k' <> k -> assoc k' (insert_index n k v props) = assoc k' props.
Proof.
  intros Hne. induction props as [|[k0 v0] props IH]; simpl.
  - destruct (String.eqb_spec k' k); [contradiction | reflexivity].
  - destruct (array_index k0) as [n'|]; [destruct (n' <? n)%Z|]; simpl;
      try (destruct (String.eqb_spec k' k); [contradiction | reflexivity]).
    rewrite IH. reflexivity.
Qed.

Lemma assoc_app_same (k : string) (v : value) (props : list (string * value)) :
  assoc k props = None -> assoc k (props ++ [(k, v)]) = Some v.
Proof.
  induction props as [|[k' v'] props IH]; simpl.
  - intros _. rewrite String.eqb_refl. reflexivity.
  - destruct (String.eqb k k'); [discriminate | auto].
Qed.

Lemma assoc_app_other (k k' : string) (v : value) (props : list (string * value)) :
  k' <> k -> assoc k' (props ++ [(k, v)]) = assoc k' props.
Proof.
  intros Hne. induction props as [|[k0 v0] props IH]; simpl.
  - destruct (String.eqb_spec k' k); [contradiction | reflexivity].
  - destruct (String.eqb k' k0); [reflexivity | exact IH].
Qed.

(** Reading back what was assigned, and leaving every other key alone. *)
Lemma assoc_set_same (props : list (string * value)) (k : string) (v : value) :
  assoc k (set_property props k v) = Some v.
Proof.
  unfold set_property. destruct (assoc k props) as [old|] eqn:E.
  - apply assoc_replace_same. congruence.
  - destruct (array_index k);
      [apply assoc_insert_same | apply assoc_app_same]; exact E.
Qed.

Lemma assoc_set_other (props : list (string * value)) (k k' : string) (v : value) :
  k' <> k -> assoc k' (set_property props k v) = assoc k' props.
Proof.
  intros Hne. unfold set_property. destruct (assoc k props).
  - apply assoc_replace_other. exact Hne.
  - destruct (array_index k);
      [apply assoc_insert_other | apply assoc_app_other]; exact Hne.
Qed.

Lemma account_of_Ok (res a : value) :
  account_of res = Ok a ->
  exists available total free total',
    get res "available" = Ok available /\
    get res "total" = Ok total /\
    ToString available = Ok free /\
    ToString total = Ok total' /\
    a = VObj [ ("free", VNum (parseFloat free));
               ("used", VNum 0);
               ("total", VNum (parseFloat total')) ].
Proof.
  unfold account_of, parseFloat_value. intros H.
  bind_inv H as available Ha. bind_inv H as free Hf. bind_inv Hf as s Hs.
  injection Hf as <-.
  bind_inv H as total Ht. bind_inv H as total' Hf. bind_inv Hf as s' Hs'.
  injection Hf as <-. injection H as <-.
  exists available, total, s, s'. repeat split; auto.
Qed.

Lemma account_of_total (res : value) :
  readable_balance res -> exists a, account_of res = Ok a.
Proof.
  intros [Hn Hfields]. unfold account_of, parseFloat_value.
  destruct (get_total res "available" Hn) as (available & Ha). rewrite Ha.
  cbn [bind].
  destruct (Hfields "available" available) as (s & ->);
    [simpl; auto | exact Ha|].
  cbn [bind].
  destruct (get_total res "total" Hn) as (total & Ht). rewrite Ht.
  cbn [bind].
  destruct (Hfields "total" total) as (s' & ->); [simpl; auto | exact Ht|].
  cbn [bind]. eauto.
Qed.

Lemma account_of_Throw (res : value) (e : exception) :
  account_of res = Throw e -> e = TypeError.
Proof.
  unfold account_of. intros H.
  apply bind_Throw in H as [H|(available & _ & H)]; [exact (get_Throw _ _ _ H)|].
  apply bind_Throw in H as [H|(free & _ & H)];
    [exact (parseFloat_value_Throw _ _ H)|].
  apply bind_Throw in H as [H|(total & _ & H)]; [exact (get_Throw _ _ _ H)|].
  apply bind_Throw in H as [H|(total' & _ & H)];
    [exact (parseFloat_value_Throw _ _ H)|].
  discriminate.
Qed.

Lemma account_of_nullish (res : value) :
  is_nullish res = true -> account_of res = Throw TypeError.
Proof.
  destruct res; try discriminate; reflexivity.
Qed.

Lemma account_of_unreadable (res available : value) :
  get res "available" = Ok available ->
  (forall s, ToString available <> Ok s) ->
  account_of res = Throw TypeError.
Proof.
  intros Ha Hnone. destruct (account_of res) as [a|e] eqn:E.
  - exfalso.
    apply account_of_Ok in E as (available' & total & s & s' & Ha' & _ & Hs & _).
    rewrite Ha in Ha'. injection Ha' as <-. exact (Hnone s Hs).
  - rewrite (account_of_Throw _ _ E). reflexivity.
Qed.

(** The loop, when it ends well: one response per key, collected in order
    under [info]; one account per key; nothing else touched. *)
Lemma fetchBalance_loop_Ok :
  forall keys balance collected out,
    ~ In "info" keys ->
    assoc "info" balance = Some (VArr collected) ->
    fetchBalance_loop keys balance = Ok out ->
    exists responses,
      Forall2 (fun k r => privateGetPrivateBalanceCurrency (VStr k) = Ok r)
              keys responses /\
      assoc "info" out = Some (VArr (collected ++ responses)) /\
      (forall k, ~ In k keys -> k <> "info" -> assoc k out = assoc k balance) /\
      (NoDup keys ->
       Forall2 (fun k r => exists a, account_of r = Ok a /\ assoc k out = Some a)
               keys responses).
Proof.
  induction keys as [|key keys IH]; intros balance collected out Hinfo Hb H;
    cbn [fetchBalance_loop] in H.
  - injection H as <-. exists []. rewrite app_nil_r.
    repeat split; auto; constructor.
  - bind_inv H as res Hres. bind_inv H as a Ha.
    assert (Hkey : key <> "info") by (intros ->; apply Hinfo; left; reflexivity).
    assert (Hb1 : assoc "info" (set_property balance key a)
                  = Some (VArr collected)).
    { rewrite assoc_set_other; [exact Hb | congruence]. }
    cbn [get] in H. rewrite Hb1 in H. cbn [bind] in H.
    assert (Hinfo' : ~ In "info" keys)
      by (intros Hin; apply Hinfo; right; exact Hin).
    destruct (IH _ (collected ++ [res])%list out Hinfo' (assoc_set_same _ _ _) H)
      as (responses & Hreq & Hout & Hother & Hacc).
    assert (Hka : ~ In key keys -> assoc key out = Some a).
    { intros Hnin. rewrite (Hother key Hnin Hkey).
      rewrite assoc_set_other by exact Hkey. apply assoc_set_same. }
    exists (res :: responses). split; [|split; [|split]].
    + constructor; assumption.
    + rewrite Hout, <- app_assoc. reflexivity.
    + intros k Hk Hki. rewrite (Hother k); auto.
      * rewrite assoc_set_other by exact Hki.
        apply assoc_set_other. intros ->. apply Hk. left. reflexivity.
      * intros Hin. apply Hk. right. exact Hin.
    + intros Hnd. inversion Hnd as [|? ? Hnin Hnd']; subst.
      constructor; [exists a; split; [exact Ha | exact (Hka Hnin)] | auto].
Qed.

(** The loop passes a run of keys whose requests all succeed with a
    readable response, and goes on with the rest. *)
Lemma fetchBalance_loop_prefix :
  forall pre balance collected,
    ~ In "info" pre ->
    assoc "info" balance = Some (VArr collected) ->
    (forall k, In k pre ->
               exists r, privateGetPrivateBalanceCurrency (VStr k) = Ok r /\
                         readable_balance r) ->
    exists balance' collected',
      assoc "info" balance' = Some (VArr collected') /\
      forall rest,
        fetchBalance_loop (pre ++ rest) balance
        = fetchBalance_loop rest balance'.
Proof.
  induction pre as [|key pre IH]; intros balance collected Hinfo Hb Hok.
  - exists balance, collected. split; [exact Hb | reflexivity].
  - destruct (Hok key (or_introl eq_refl)) as (r & Hr & Hn).
    destruct (account_of_total r Hn) as (a & Ha).
    assert (Hkey : key <> "info") by (intros ->; apply Hinfo; left; reflexivity).
    assert (Hb1 : assoc "info" (set_property balance key a)
                  = Some (VArr collected)).
    { rewrite assoc_set_other; [exact Hb | congruence]. }
    destruct (IH (set_property (set_property balance key a) "info"
                    (VArr (collected ++ [r])))
                 (collected ++ [r])%list)
      as (balance' & collected' & Hb' & Hrest).
    + intros Hin. apply Hinfo. right. exact Hin.
    + apply assoc_set_same.
    + intros k Hk. apply Hok. right. exact Hk.
    + exists balance', collected'. split; [exact Hb'|].
      intros rest. cbn [app fetchBalance_loop].
      rewrite Hr. cbn [bind]. rewrite Ha. cbn [bind get].
      rewrite Hb1. cbn [bind]. apply Hrest.
Qed.

(** A currency coded "info": the loop that reaches it through successful
    requests ends in a [TypeError], there or before. *)
Lemma fetchBalance_loop_info :
  forall pre balance collected post r,
    ~ In "info" pre ->
    assoc "info" balance = Some (VArr collected) ->
    (forall k, In k pre ->
               exists r, privateGetPrivateBalanceCurrency (VStr k) = Ok r /\
                         is_nullish r = false) ->
    privateGetPrivateBalanceCurrency (VStr "info") = Ok r ->
    fetchBalance_loop (pre ++ "info" :: post) balance = Throw TypeError.
Proof.
  induction pre as [|key pre IH]; intros balance collected post r Hinfo Hb Hok Hr.
  - cbn [app fetchBalance_loop]. rewrite Hr. cbn [bind].
    destruct (account_of r) as [a|e] eqn:Ha.
    + cbn [bind get]. rewrite assoc_set_same. cbn [bind].
      apply account_of_Ok in Ha as (available & total & s & s' & _ & _ & _ & _ & ->).
      reflexivity.
    + rewrite (account_of_Throw _ _ Ha). reflexivity.
  - destruct (Hok key (or_introl eq_refl)) as (r' & Hr' & _).
    cbn [app fetchBalance_loop]. rewrite Hr'. cbn [bind].
    destruct (account_of r') as [a|e] eqn:Ha.
    + assert (Hkey : key <> "info")
        by (intros ->; apply Hinfo; left; reflexivity).
      cbn [bind get]. rewrite assoc_set_other by congruence.
      rewrite Hb. cbn [bind].
      apply (IH _ (collected ++ [r'])%list post r).
      * intros Hin. apply Hinfo. right. exact Hin.
      * apply assoc_set_same.
      * intros k Hk. apply Hok. right. exact Hk.
      * exact Hr.
    + rewrite (account_of_Throw _ _ Ha). reflexivity.
Qed.

(** X18.  Asked for all currencies, [fetchBalance] requests every currency
    code of the instance in turn.  When all requests succeed with a response
    whose [available] and [total] have a string, and no code is "info", the
    object it hands to [parseBalance] holds, under each code, the account of
    that code's response, with [free] read from the string of [available],
    [total] from the string of [total] and [used] zero, and under [info] the
    responses in request order. *)
Theorem fetchBalance_all_currencies :
  forall currencies keys,
    Object_keys currencies = Ok keys ->
    NoDup keys ->
    ~ In "info" keys ->
    ~ In "__proto__" keys ->
    (forall k, In k keys ->
               exists r, privateGetPrivateBalanceCurrency (VStr k) = Ok r /\
                         readable_balance r) ->
    exists balance responses,
      fetchBalance currencies VUndefined = Ok (parseBalance (VObj balance)) /\
      get (VObj balance) "info" = Ok (VArr responses) /\
      Forall2 (fun k r =>
                 privateGetPrivateBalanceCurrency (VStr k) = Ok r /\
                 exists available total free total',
                   get r "available" = Ok available /\
                   get r "total" = Ok total /\
                   ToString available = Ok free /\
                   ToString total = Ok total' /\
                   get (VObj balance) k
                   = Ok (VObj [ ("free", VNum (parseFloat free));
                                ("used", VNum 0);
                                ("total", VNum (parseFloat total')) ]))
              keys responses.
Proof.
  intros currencies keys Hkeys Hnd Hinfo _ Hok.
  unfold fetchBalance, fetchBalance_result. rewrite Hkeys. cbn [bind].
  destruct (fetchBalance_loop_prefix keys (set_property [] "info" (VArr [])) []
              Hinfo (assoc_set_same _ _ _) Hok)
    as (balance & collected & Hb & Hrest).
  specialize (Hrest []). rewrite app_nil_r in Hrest.
  cbn [fetchBalance_loop] in Hrest.
  destruct (fetchBalance_loop_Ok keys _ [] balance Hinfo
              (assoc_set_same _ _ _) Hrest)
    as (responses & Hreq & Hout & _ & Hacc).
  exists balance, responses. rewrite Hrest. cbn [bind].
  split; [reflexivity|]. split.
  - cbn [get]. rewrite Hout. reflexivity.
  - specialize (Hacc Hnd). clear - Hreq Hacc.
    induction Hreq as [|k r ks rs Hr _ IH]; [constructor|].
    inversion Hacc as [|? ? ? ? (a & Ha & Hk) Hacc']; subst.
    constructor; [|apply IH; exact Hacc'].
    split; [exact Hr|].
    apply account_of_Ok in Ha
      as (available & total & free & total' & Hav & Htot & Hf & Ht & ->).
    exists available, total, free, total'. repeat split; auto.
    cbn [get]. rewrite Hk. reflexivity.
Qed.

(** X19.  [fetchBalance] for all currencies stops at the first request that
    fails, and fails with it: after a run of requests that succeed with a
    readable response, an error raised by the next request is the error of
    the call, and a response that is [null] or [undefined], or whose
    [available] has no string, is a [TypeError]; nothing of the accounts
    collected so far is returned. *)
Theorem fetchBalance_first_failure :
  forall currencies pre key post,
    Object_keys currencies = Ok (pre ++ key :: post)%list ->
    ~ In "info" pre ->
    ~ In "__proto__" pre ->
    (forall k, In k pre ->
               exists r, privateGetPrivateBalanceCurrency (VStr k) = Ok r /\
                         readable_balance r) ->
    (forall e, privateGetPrivateBalanceCurrency (VStr key) = Throw e ->
               fetchBalance currencies VUndefined = Throw e) /\
    (forall r, privateGetPrivateBalanceCurrency (VStr key) = Ok r ->
               is_nullish r = true ->
               fetchBalance currencies VUndefined = Throw TypeError) /\
    (forall r available,
        privateGetPrivateBalanceCurrency (VStr key) = Ok r ->
        get r "available" = Ok available ->
        (forall s, ToString available <> Ok s) ->
        fetchBalance currencies VUndefined = Throw TypeError).
Proof.
  intros currencies pre key post Hkeys Hinfo _ Hok.
  unfold fetchBalance, fetchBalance_result. rewrite Hkeys. cbn [bind].
  destruct (fetchBalance_loop_prefix pre (set_property [] "info" (VArr [])) []
              Hinfo (assoc_set_same _ _ _) Hok)
    as (balance & collected & Hb & Hrest).
  rewrite Hrest. cbn [fetchBalance_loop]. split; [|split].
  - intros e ->. reflexivity.
  - intros r -> Hn. cbn [bind]. rewrite (account_of_nullish r Hn). reflexivity.
  - intros r available -> Ha Hnone. cbn [bind].
    rewrite (account_of_unreadable r available Ha Hnone). reflexivity.
Qed.

(** X20.  A currency whose code is "info" breaks the all-currencies call: its
    account takes the place of the list of responses, and once its request
    has succeeded the call throws a [TypeError]. *)
Theorem fetchBalance_info_currency :
  forall currencies pre post r,
    Object_keys currencies = Ok (pre ++ "info" :: post)%list ->
    ~ In "info" pre ->
    ~ In "__proto__" pre ->
    (forall k, In k pre ->
               exists r, privateGetPrivateBalanceCurrency (VStr k) = Ok r /\
                         is_nullish r = false) ->
    privateGetPrivateBalanceCurrency (VStr "info") = Ok r ->
    fetchBalance currencies VUndefined = Throw TypeError.
Proof.
  intros currencies pre post r Hkeys Hinfo _ Hok Hr.
  unfold fetchBalance, fetchBalance_result. rewrite Hkeys. cbn [bind].
  rewrite (fetchBalance_loop_info pre _ [] post r Hinfo
             (assoc_set_same _ _ _) Hok Hr).
  reflexivity.
Qed.

(** X21.  Asked for one currency, [fetchBalance] files the account under the
    currency code the response reports, not under the code that was asked
    for, with [used] zero, and keeps the response under [info]; a response
    that reports "info" as its code leaves no account at all.  This for a
    response whose [currency], [available] and [total] have a string. *)
Theorem fetchBalance_single_currency :
  forall currencies currency res code c,
    currency <> VUndefined ->
    privateGetPrivateBalanceCurrency currency = Ok res ->
    get res "currency" = Ok code ->
    ToString code = Ok c ->
    c <> "__proto__" ->
    readable_balance res ->
    exists balance available total free total',
      fetchBalance currencies currency = Ok (parseBalance (VObj balance)) /\
      get res "available" = Ok available /\
      get res "total" = Ok total /\
      ToString available = Ok free /\
      ToString total = Ok total' /\
      get (VObj balance) "info" = Ok res /\
      (c <> "info" ->
       get (VObj balance) c
       = Ok (VObj [ ("free", VNum (parseFloat free));
                    ("used", VNum 0);
                    ("total", VNum (parseFloat total')) ])) /\
      (c = "info" -> balance = [ ("info", res) ]).
Proof.
  intros currencies currency res code c Hc Hres Hcode Hstring _ Hreadable.
  destruct (account_of_total res Hreadable) as (a & Ha).
  pose proof (account_of_Ok _ _ Ha)
    as (available & total & free & total' & Hav & Htot & Hf & Ht & Hacc).
  exists (set_property (set_property [] c a) "info" res),
         available, total, free, total'.
  split; [|repeat split; auto].
  - unfold fetchBalance, fetchBalance_result.
    destruct currency; try congruence;
      rewrite Hres; cbn [bind]; rewrite Ha; cbn [bind]; rewrite Hcode;
      cbn [bind]; rewrite Hstring; reflexivity.
  - cbn [get]. rewrite assoc_set_same. reflexivity.
  - intros Hne. cbn [get]. rewrite assoc_set_other by exact Hne.
    rewrite assoc_set_same, Hacc. reflexivity.
  - intros ->.
    change (set_property [] "info" a) with [("info", a)].
    reflexivity.
Qed.

(** ** The table of codes and the status fallback, on raw responses *)

Lemma safeString_value (o : value) (k : string) (v : value) (s : string)
  (d : option string) :
  isObject o = true -> get o k = Ok v -> is_nullish v = false ->
  ToString v = Ok s -> safeString o k d = Ok (Some s).
Proof.
  intros Ho H Hn Hs. unfold safeString. rewrite (prop_get _ _ _ Ho H).
  destruct v; try discriminate; rewrite Hs; reflexivity.
Qed.

(** X22.  On a JSON-looking body, a response object whose [errorCode], a
    string or a number, has for string a code of the table raises that
    code's error class with the response's [reason] as message, whatever
    its [status] field says: the code is looked at first. *)
Theorem handleErrors_table_code :
  forall httpCode reason url method headers text response errorCode code cls
         message,
    (String.length text <? 2)%nat = false ->
    looks_like_json text = true ->
    isObject response = true ->
    get response "errorCode" = Ok errorCode ->
    is_nullish errorCode = false ->
    ToString errorCode = Ok code ->
    assoc code exceptions = Some cls ->
    get response "reason" = Ok message ->
    handleErrors httpCode reason url method headers (VStr text) response
    = Throw (Raised cls message).
Proof.
  intros httpCode reason url method headers text response errorCode code cls
         message Hl Hj Ho Hcode Hn Hs Hcls Hm.
  apply (handleErrors_listed _ _ _ _ _ _ _ code); auto.
  exact (safeString_value _ _ _ _ _ Ho Hcode Hn Hs).
Qed.

(** X23.  On a JSON-looking body, a response object with no [errorCode]
    raises the generic [ExchangeError] with its [reason] when its [status]
    is the string "error", and raises nothing when its [status] is another
    string or is absent. *)
Theorem handleErrors_status_fallback :
  forall httpCode reason url method headers text response,
    (String.length text <? 2)%nat = false ->
    looks_like_json text = true ->
    isObject response = true ->
    get response "errorCode" = Ok VUndefined ->
    (forall message,
        get response "status" = Ok (VStr "error") ->
        get response "reason" = Ok message ->
        handleErrors httpCode reason url method headers (VStr text) response
        = Throw (Raised ExchangeError message)) /\
    (forall status,
        get response "status" = Ok (VStr status) -> status <> "error" ->
        handleErrors httpCode reason url method headers (VStr text) response
        = Ok tt) /\
    (get response "status" = Ok VUndefined ->
     handleErrors httpCode reason url method headers (VStr text) response
     = Ok tt).
Proof.
  intros httpCode reason url method headers text response Hl Hj Ho Hcode.
  destruct (handleErrors_unlisted httpCode reason url method headers response
              text None Hl Hj (safeString_undefined _ _ _ Hcode) eq_refl)
    as [Herr Hok].
  split; [|split].
  - intros message Hs Hm. apply Herr; [|exact Hm].
    apply safeString_field; assumption.
  - intros status Hs Hne. apply (Hok (Some status)).
    + apply safeString_field; assumption.
    + congruence.
  - intros Hs. apply (Hok None).
    + apply safeString_undefined. exact Hs.
    + discriminate.
Qed.


(** ** A normalized trade is no raw trade *)

Lemma parseTrades_entries (trades market : value) (since : option float)
  (limit : option nat) (out : list Trade.t) :
  parseTrades trades market since limit = Ok out ->
  exists raw entries,
    get trades "trades" = Ok raw /\
    Object_values raw = Ok entries /\
    Forall (fun t => exists trade,
                In trade entries /\ parseTrade trade market = Ok t)
           out.
Proof.
  intros H.
  apply parseTrades_Ok in H
    as (raw & len & entries & Hraw & _ & Hentries &
        [[_ ->]|(_ & parsed & symbol & Hparsed & _ & ->)]);
    exists raw, entries; repeat split; auto.
  apply Forall_forall. intros t Ht. unfold filterBySymbolSinceLimit in Ht.
  assert (Hin : In t (filter (keep symbol since) (sortBy parsed))).
  { destruct limit as [n|]; [|exact Ht].
    rewrite <- (firstn_skipn n). apply in_or_app. left. exact Ht. }
  apply filter_In in Hin as [Hin _].
  apply (Permutation_in _ (Permutation_sym (sortBy_Permutation parsed))) in Hin.
  apply mapM_Forall2 in Hparsed. clear - Hparsed Hin.
  induction Hparsed as [|e t' es ts He _ IH]; [contradiction|].
  destruct Hin as [->|Hin].
  - exists e. split; [left; reflexivity | exact He].
  - destruct (IH Hin) as (e' & Hin' & He'). exists e'. split; [right|]; auto.
Qed.

Lemma parseTrade_type (trade market : value) (t : Trade.t) :
  parseTrade trade market = Ok t -> Trade.type t = VUndefined.
Proof.
  unfold parseTrade. intros H.
  bind_inv H as side Hside. bind_inv H as id Hid.
  bind_inv H as dt Hdt. bind_inv H as seconds Hseconds.
  bind_inv H as fields Hf.
  destruct fields as [[[price amount] cost] symbol]. injection H as <-.
  reflexivity.
Qed.

(** The object of a normalized trade has no side under the raw key. *)
Lemma trade_object_side (t : Trade.t) :
  Trade.type t = VUndefined ->
  safeString (trade_object t) "type" None = Ok None.
Proof.
  intros Ht. unfold safeString, prop, trade_object. simpl. rewrite Ht.
  reflexivity.
Qed.

End Tokens.

(** ** The samples, run *)

Lemma fetchMarkets_ids_witness :
  exists ms,
    fetchMarkets no_string no_number no_string_object no_number_object
      no_case no_pow (VArr [dpp_eth_record]) = Ok ms /\
    Forall2 (fun record m =>
               forall BASE QUOTE,
                 get record "title" = Ok (VStr (BASE ++ "/" ++ QUOTE)) ->
                 occurs "/" BASE = false ->
                 occurs "/" QUOTE = false ->
                 Market.id m
                 = toLowerCase no_case BASE ++ toLowerCase no_case QUOTE /\
                 Market.symbolId m
                 = toLowerCase no_case BASE ++ "_" ++ toLowerCase no_case QUOTE)
            [dpp_eth_record] ms.
Proof.
  eexists. split; [reflexivity|].
  apply (proj1 (fetchMarkets_ids no_string no_number no_string_object
                  no_number_object no_case no_pow)
           (VArr [dpp_eth_record]));
    reflexivity.
Defined.

Lemma fetchMarkets_precision_witness :
  exists ms,
    fetchMarkets no_string no_number no_string_object no_number_object
      no_case no_pow (VArr [dpp_eth_record]) = Ok ms /\
    Forall2 (fun record m =>
               get record "priceDecimals" = Ok (p_amount (Market.precision m)) /\
               get record "amountDecimals" = Ok (p_price (Market.precision m)))
            [dpp_eth_record] ms.
Proof.
  eexists. split; [reflexivity|].
  apply (fetchMarkets_precision no_string no_number no_string_object
           no_number_object no_case no_pow (VArr [dpp_eth_record]));
    reflexivity.
Defined.



Lemma fetchTicker_quoteVolume_witness :
  exists t,
    fetchTicker no_string no_string_object no_date (VStr "DPP/ETH")
      sample_ticker_strings = Ok t /\
    Ticker.baseVolume t = Some 10%float /\ Ticker.vwap t = Some 2%float /\
    Ticker.quoteVolume t = Some (10 * 2)%float.
Proof.
  eexists. split; [reflexivity|].
  apply (proj1 (proj1 (fetchTicker_quoteVolume no_string no_string_object
                         no_date)
                  (VStr "DPP/ETH") sample_ticker_strings _ eq_refl
                  (VStr "10") (VStr "2") eq_refl eq_refl));
    reflexivity.
Defined.

Lemma parseOrder_filled_cost_witness :
  exists o,
    parseOrder no_string no_number no_string_object no_number_object no_date
      sample_catalog sample_order_strings VUndefined = Ok o /\
    Order.filled o = 2%float /\
    Order.cost o = (0.5 * Order.filled o)%float /\
    Order.cost o = 1%float.
Proof.
  eexists. split; [reflexivity|].
  apply (proj1 (parseOrder_filled_cost no_string no_number no_string_object
                  no_number_object no_date
                  sample_catalog sample_order_strings VUndefined
                  (VStr "5") (VStr "3") (VStr "0.5") 5 3 0.5
                  eq_refl eq_refl eq_refl eq_refl eq_refl eq_refl
                  eq_refl eq_refl eq_refl)).
  reflexivity.
Defined.

Lemma parseOrder_market_lookup_witness :
  exists o,
    parseOrder no_string no_number no_string_object no_number_object no_date
      sample_catalog sample_order VNull = Ok o /\
    exists currencyPair key resolved,
      get sample_order "currencyPair" = Ok currencyPair /\
      ToString no_string no_string_object currencyPair = Ok key /\
      get sample_catalog key = Ok resolved /\
      Fee.cost (Order.fee o) = VUndefined /\
      (if defined resolved
       then get resolved "quote" = Ok (Fee.currency (Order.fee o))
       else Fee.currency (Order.fee o) = VUndefined).
Proof.
  eexists. split; [reflexivity|].
  apply (proj1 (proj2 (parseOrder_market_lookup no_string no_number
                         no_string_object no_number_object no_date))
           sample_catalog sample_order VNull).
  reflexivity.
Defined.

Lemma sign_private_witness :
  exists key sec,
    apiKey sample_instance = Some key /\ secret sample_instance = Some sec /\
    sign no_case no_hmac no_urlencode no_implode no_extract sample_instance
      "private/orders/get/all/" "private" (VStr "GET") [] VUndefined VUndefined
    = Ok {| Request.url := api_url ++ "private/orders/get/all/";
            Request.method := VStr "GET";
            Request.body := VStr "";
            Request.headers :=
              VObj [ ("key", VStr key);
                     ("signature",
                      VStr (toUpperCase no_case
                              (no_hmac (Z_to_string (nonce sample_instance) ++ key)
                                       sec)));
                     ("nonce", VStr (Z_to_string (nonce sample_instance)));
                     ("Content-Type",
                      VStr "application/x-www-form-urlencoded") ] |}.
Proof.
  apply (proj1 (sign_private no_case no_hmac no_urlencode no_implode no_extract
                  sample_instance "private/orders/get/all/" "private"
                  (VStr "GET") [] VUndefined VUndefined)).
  - discriminate.
  - reflexivity.
  - reflexivity.
Defined.

Lemma parseTrades_stage_fixed_witness :
  exists out,
    parseTrades no_string no_string_object no_date sample_trades dpp_eth_market
      (Some 150000%float) (Some 1%nat) = Ok out /\
    List.length out = 1%nat /\
    sortBy out = out /\
    filterBySymbolSinceLimit out (VStr "DPP/ETH") (Some 150000%float) (Some 1%nat)
    = out.
Proof.
  eexists. split; [reflexivity|]. split; [reflexivity|].
  destruct (proj2 (proj2 (parseTrades_stage_fixed no_string no_string_object
                            no_date))
              sample_trades dpp_eth_market (Some 150000%float) (Some 1%nat)
              _ eq_refl) as [Hs Hf].
  - intros raw entries Hraw Hentries.
    injection Hraw as <-. injection Hentries as <-.
    repeat constructor.
  - split; [exact Hs | apply Hf; reflexivity].
Defined.

(** C8, as stated, fails: with no host at all does every sequence
    [parseTrades] returns come back from [parseTrades] applied to it, neither
    when the sequence is passed as it is (an array has no [trades] list, and
    the call throws) nor when it is wrapped as a raw payload (a normalized
    trade keeps its side under [side], not under the raw key [type]). *)
Lemma parseTrades_not_reapplicable :
  ~ (exists String_host String_object iso8601,
        forall trades market since limit out,
          parseTrades String_host String_object iso8601 trades market since
            limit = Ok out ->
          parseTrades String_host String_object iso8601
            (VArr (map trade_object out)) market since limit = Ok out)
  /\ ~ (exists String_host String_object iso8601,
           forall trades market since limit out,
             parseTrades String_host String_object iso8601 trades market since
               limit = Ok out ->
             parseTrades String_host String_object iso8601
               (VObj [ ("trades", VArr (map trade_object out)) ])
               market since limit = Ok out).
Proof.
  split.
  - intros (sh & so & iso & H).
    specialize (H single_trade dpp_eth_market None None _ eq_refl).
    unfold parseTrades in H. rewrite parseTrades_array in H. discriminate.
  - intros (sh & so & iso & H).
    assert (E : exists t,
               parseTrades sh so iso single_trade dpp_eth_market None None
               = Ok [t] /\
               Trade.side t = Some "buy")
      by (eexists; split; reflexivity).
    destruct E as (t & E & Hside).
    pose proof (parseTrades_entries sh so iso _ _ _ _ _ E)
      as (raw0 & entries0 & _ & _ & Hparsed0).
    apply Forall_inv in Hparsed0 as (trade0 & _ & Ht0).
    apply parseTrade_type in Ht0.
    apply H in E.
    apply parseTrades_entries in E as (raw & entries & Hraw & Hentries & Hparsed).
    simpl in Hraw. injection Hraw as <-.
    simpl in Hentries. injection Hentries as <-.
    apply Forall_inv in Hparsed as (trade & Hin & Ht).
    destruct Hin as [<-|[]].
    apply parseTrade_Ok in Ht
      as (dt & p & a & c & _ & _ & _ & _ & _ & _ & Hs & _).
    rewrite (trade_object_side sh so _ Ht0) in Hs. congruence.
Qed.

(** ** Further samples, run *)

Lemma fetchMarkets_one_per_record_witness :
  exists ms,
    fetchMarkets no_string no_number no_string_object no_number_object
      no_case no_pow (VArr [dpp_eth_record]) = Ok ms /\
    exists records,
      Object_values (VArr [dpp_eth_record]) = Ok records /\
      List.length ms = List.length records /\
      Forall2 (fun record m =>
                 Market.info m = record /\
                 get record "title" = Ok (VStr (Market.symbol m)) /\
                 (Market.active m = true <->
                  get record "trading" = Ok (VStr "Enabled")))
              records ms.
Proof.
  eexists. split; [reflexivity|].
  apply (fetchMarkets_one_per_record no_string no_number no_string_object
           no_number_object no_case no_pow).
  reflexivity.
Defined.

Lemma fetchMarkets_all_or_nothing_witness :
  fetchMarkets no_string no_number no_string_object no_number_object
    no_case no_pow (VArr [dpp_eth_record; unsplit_record])
  = Throw TypeError.
Proof.
  apply (fetchMarkets_all_or_nothing no_string no_number no_string_object
           no_number_object no_case no_pow _
           [dpp_eth_record; unsplit_record] unsplit_record).
  - reflexivity.
  - right. left. reflexivity.
  - left. intros title H. injection H as <-. reflexivity.
Defined.

Lemma fetchMarkets_symbol_parts_witness :
  exists ms,
    fetchMarkets no_string no_number no_string_object no_number_object
      no_case no_pow (VArr [dpp_eth_record]) = Ok ms /\
    Forall (fun m =>
              occurs "/" (Market.base m) = false /\
              occurs "/" (Market.quote m) = false /\
              exists rest,
                Market.symbol m
                = Market.base m ++ "/" ++ Market.quote m ++ rest /\
                (rest = "" \/ exists more, rest = String "/" more))
           ms.
Proof.
  eexists. split; [reflexivity|].
  apply (fetchMarkets_symbol_parts no_string no_number no_string_object
           no_number_object no_case no_pow (VArr [dpp_eth_record])).
  reflexivity.
Defined.

Lemma parseTrade_cost_not_negative_witness :
  exists t,
    parseTrade no_string no_string_object no_date pair_trade dpp_eth_market
    = Ok t /\
    Trade.cost t = Some 2%float /\
    (2 <? 0)%float = false.
Proof.
  eexists. split; [reflexivity|]. split; [reflexivity|].
  apply (parseTrade_cost_not_negative no_string no_string_object no_date
           pair_trade dpp_eth_market _ 2 eq_refl eq_refl).
Defined.

Lemma parseTrade_cost_witness :
  exists t,
    parseTrade no_string no_string_object no_date (sample_trade "100" 0.5 4)
      VUndefined = Ok t /\
    Trade.price t = Some 0.5%float /\
    Trade.amount t = Some 4%float /\
    Trade.symbol t = VUndefined /\
    Trade.cost t = Some 2%float.
Proof.
  eexists. split; [reflexivity|].
  destruct (parseTrade_cost no_string no_string_object no_date
              (sample_trade "100" 0.5 4)
              0.5 4 _ eq_refl eq_refl eq_refl eq_refl eq_refl eq_refl)
    as (Hp & Ha & Hs & Hc & _).
  exact (conj Hp (conj Ha (conj Hs (Hc eq_refl)))).
Defined.

Lemma parseTrade_market_fields_witness :
  exists t,
    parseTrade no_string no_string_object no_date pair_trade dpp_eth_market
    = Ok t /\
    Trade.price t = Some 0.5%float /\
    Trade.amount t = Some 4%float.
Proof.
  eexists. split; [reflexivity|].
  destruct (parseTrade_market_fields no_string no_string_object no_date
              pair_trade dpp_eth_market "dpp_eth" "dpp" _
              eq_refl eq_refl eq_refl eq_refl)
    as (_ & Hp & _ & Ha & _).
  split; [exact (Hp _ eq_refl eq_refl) | exact (Ha _ eq_refl eq_refl)].
Defined.

Lemma parseTrades_sorted_witness :
  exists out,
    parseTrades no_string no_string_object no_date sample_trades dpp_eth_market
      None None = Ok out /\
    StronglySorted timestamp_le out.
Proof.
  eexists. split; [reflexivity|].
  apply (parseTrades_sorted no_string no_string_object no_date sample_trades
           dpp_eth_market None None _ eq_refl).
  intros raw entries Hraw Hentries.
  injection Hraw as <-. injection Hentries as <-.
  repeat constructor.
Defined.

Lemma parseTrades_filtered_witness :
  exists out,
    parseTrades no_string no_string_object no_date sample_trades dpp_eth_market
      (Some 150000%float) (Some 1%nat) = Ok out /\
    List.length out <= 1 /\
    Forall (fun t => (150000 <=? Trade.timestamp t)%float = true) out /\
    Forall (fun t => strict_equal (Trade.symbol t) (VStr "DPP/ETH") = true) out.
Proof.
  eexists. split; [reflexivity|].
  destruct (parseTrades_filtered no_string no_string_object no_date
              sample_trades dpp_eth_market (Some 150000%float) (Some 1%nat)
              _ eq_refl)
    as (_ & Hl & Hs & Hsym).
  split; [exact (Hl _ eq_refl)|].
  split; [exact (Hs _ eq_refl) | exact (Hsym _ eq_refl eq_refl)].
Defined.

Lemma parseTrades_keeps_all_witness :
  exists out,
    parseTrades no_string no_string_object no_date sample_trades dpp_eth_market
      None None = Ok out /\
    exists raw len entries,
      get sample_trades "trades" = Ok raw /\
      get raw "length" = Ok len /\
      Object_values raw = Ok entries /\
      ((strict_equal len (VNum 0) = true /\ out = []) \/
       (exists parsed,
           mapM (fun trade =>
                   parseTrade no_string no_string_object no_date trade
                     dpp_eth_market)
                entries = Ok parsed /\
           Permutation parsed out /\
           List.length out = List.length entries)).
Proof.
  eexists. split; [reflexivity|].
  apply (parseTrades_keeps_all no_string no_string_object no_date
           sample_trades dpp_eth_market).
  - right. exists "DPP/ETH". reflexivity.
  - reflexivity.
Defined.

Lemma parseOrder_trades_symbol_witness :
  exists o,
    parseOrder no_string no_number no_string_object no_number_object no_date
      sample_catalog sample_order VUndefined = Ok o /\
    Forall (fun t => Trade.symbol t = Order.symbol o) (Order.trades o) /\
    exists currencyPair key resolved,
      get sample_order "currencyPair" = Ok currencyPair /\
      ToString no_string no_string_object currencyPair = Ok key /\
      get sample_catalog key = Ok resolved /\
      Forall2 (fun item t =>
                 parseTrade no_string no_string_object no_date item resolved
                 = Ok t)
              [ sample_trade "1546300900" 0.5 2 ] (Order.trades o).
Proof.
  eexists. split; [reflexivity|].
  destruct (parseOrder_trades_symbol no_string no_number no_string_object
              no_number_object no_date
              sample_catalog sample_order VUndefined _ eq_refl) as [Hs Ht].
  split; [exact Hs | exact (Ht _ eq_refl)].
Defined.

Lemma parseOrder_missing_numbers_witness :
  exists o,
    parseOrder no_string no_number no_string_object no_number_object no_date
      sample_catalog order_without_amount VUndefined = Ok o /\
    Order.amount o = None /\
    is_nan (Order.filled o) = true /\
    is_nan (Order.cost o) = true.
Proof.
  eexists. split; [reflexivity|]. split; [reflexivity|].
  apply (proj1 (parseOrder_missing_numbers no_string no_number
                  no_string_object no_number_object no_date
                  sample_catalog order_without_amount VUndefined _ eq_refl)).
  left. reflexivity.
Defined.

Lemma fetchOrder_status_witness :
  exists o,
    fetchOrder no_string no_number no_string_object no_number_object no_date
      sample_catalog sample_order = Ok o /\
    fetchOrderStatus no_string no_string_object sample_order
    = Ok (Order.status o) /\
    Order.status o = VStr "open".
Proof.
  eexists. split; [reflexivity|].
  destruct (fetchOrder_status no_string no_number no_string_object
              no_number_object no_date sample_catalog
              sample_order _ eq_refl) as (Hs & _ & _ & _ & Ht).
  split; [exact Hs | exact (Ht "open" "open" eq_refl eq_refl)].
Defined.

Lemma handleErrors_raises_only_witness :
  (exists text,
      VStr "{}" = VStr text /\
      (String.length text <? 2)%nat = false /\
      looks_like_json text = true) /\
  isObject status_error_response = true.
Proof.
  apply (handleErrors_raises_only no_string no_string_object
           VUndefined VUndefined VUndefined
           VUndefined VUndefined (VStr "{}") status_error_response
           (Raised ExchangeError (VStr "x"))).
  reflexivity.
Defined.


Lemma fetchBalance_all_currencies_witness :
  exists balance responses,
    fetchBalance no_string no_string_object sample_balance_request
      no_parseBalance sample_currencies VUndefined
    = Ok (no_parseBalance (VObj balance)) /\
    get (VObj balance) "info" = Ok (VArr responses) /\
    Forall2 (fun k r =>
               sample_balance_request (VStr k) = Ok r /\
               exists available total free total',
                 get r "available" = Ok available /\
                 get r "total" = Ok total /\
                 ToString no_string no_string_object available = Ok free /\
                 ToString no_string no_string_object total = Ok total' /\
                 get (VObj balance) k
                 = Ok (VObj [ ("free", VNum (parseFloat free));
                              ("used", VNum 0);
                              ("total", VNum (parseFloat total')) ]))
            ["DPP"; "ETH"] responses.
Proof.
  apply (fetchBalance_all_currencies no_string no_string_object
           sample_balance_request no_parseBalance sample_currencies
           ["DPP"; "ETH"]).
  - reflexivity.
  - constructor; [intros [H|[]]; discriminate|].
    constructor; [intros []|constructor].
  - intros [H|[H|[]]]; discriminate.
  - intros [H|[H|[]]]; discriminate.
  - intros k _. eexists. split; [reflexivity|]. split; [reflexivity|].
    intros f v [<-|[<-|[]]] H; injection H as <-; eexists; reflexivity.
Defined.

Lemma fetchBalance_first_failure_witness :
  fetchBalance no_string no_string_object failing_balance_request
    no_parseBalance sample_currencies VUndefined
  = Throw (Raised DDoSProtection (VStr "API rate limit exceeded")).
Proof.
  refine (proj1 (fetchBalance_first_failure no_string no_string_object
                   failing_balance_request
                   no_parseBalance sample_currencies ["DPP"] "ETH" []
                   eq_refl _ _ _) _ eq_refl).
  - intros [H|[]]; discriminate.
  - intros [H|[]]; discriminate.
  - intros k [<-|[]]. eexists. split; [reflexivity|]. split; [reflexivity|].
    intros f v [<-|[<-|[]]] H; injection H as <-; eexists; reflexivity.
Defined.

Lemma fetchBalance_info_currency_witness :
  fetchBalance no_string no_string_object sample_balance_request
    no_parseBalance currencies_with_info VUndefined
  = Throw TypeError.
Proof.
  apply (fetchBalance_info_currency no_string no_string_object
           sample_balance_request
           no_parseBalance currencies_with_info ["DPP"] []
           (sample_balance (VStr "info"))).
  - reflexivity.
  - intros [H|[]]; discriminate.
  - intros [H|[]]; discriminate.
  - intros k _. eexists. split; reflexivity.
  - reflexivity.
Defined.

Lemma fetchBalance_single_currency_witness :
  exists balance,
    fetchBalance no_string no_string_object mislabelled_balance_request
      no_parseBalance sample_currencies (VStr "ETH")
    = Ok (no_parseBalance (VObj balance)) /\
    get (VObj balance) "info" = Ok (sample_balance (VStr "DPP")) /\
    get (VObj balance) "DPP"
    = Ok (VObj [ ("free", VNum 1.5); ("used", VNum 0); ("total", VNum 2) ]) /\
    get (VObj balance) "ETH" = Ok VUndefined.
Proof.
  destruct (fetchBalance_single_currency no_string no_string_object
              mislabelled_balance_request
              no_parseBalance sample_currencies (VStr "ETH")
              (sample_balance (VStr "DPP")) (VStr "DPP") "DPP")
    as (balance & available & total & free & total' &
        Hb & Ha & Ht & Hf & Ht' & Hinfo & Hacc & _).
  - discriminate.
  - reflexivity.
  - reflexivity.
  - reflexivity.
  - discriminate.
  - split; [reflexivity|].
    intros f v [<-|[<-|[]]] H; injection H as <-; eexists; reflexivity.
  - injection Ha as <-. injection Ht as <-.
    injection Hf as <-. injection Ht' as <-.
    exists balance. split; [exact Hb|]. split; [exact Hinfo|].
    split; [apply Hacc; discriminate|].
    assert (Hc : exists b,
               fetchBalance no_string no_string_object
                 mislabelled_balance_request no_parseBalance
                 sample_currencies (VStr "ETH") = Ok (VObj b) /\
               get (VObj b) "ETH" = Ok VUndefined)
      by (eexists; split; reflexivity).
    destruct Hc as (b & Hc & Heth).
    rewrite Hb in Hc. unfold no_parseBalance in Hc. injection Hc as ->.
    exact Heth.
Defined.

Lemma handleErrors_table_code_witness :
  handleErrors no_string no_string_object
    VUndefined VUndefined VUndefined VUndefined VUndefined
    (VStr "{}") rate_limit_response
  = Throw (Raised DDoSProtection (VStr "API rate limit exceeded")).
Proof.
  apply (handleErrors_table_code no_string no_string_object
           VUndefined VUndefined VUndefined
           VUndefined VUndefined "{}" rate_limit_response (VNum 429) "429");
    reflexivity.
Defined.

Lemma handleErrors_status_fallback_witness :
  handleErrors no_string no_string_object
    VUndefined VUndefined VUndefined VUndefined VUndefined
    (VStr "{}") status_error_response
  = Throw (Raised ExchangeError (VStr "x")).
Proof.
  apply (proj1 (handleErrors_status_fallback no_string no_string_object
                  VUndefined VUndefined
                  VUndefined VUndefined VUndefined "{}" status_error_response
                  eq_refl eq_refl eq_refl eq_refl));
    reflexivity.
Defined.
